(** * Display loop host of the chess renderer (CPPMain/SourceFiles/main.cpp)

    The translation unit defines two functions, [display] and [main].  Both
    are straight-line glue over GLFW, freeglut, OpenGL and the standard error
    stream; [main] contains the only loop, which runs until the window's
    close flag is observed set and therefore need not terminate.

    The program is embedded as interaction trees over one event type
    [callE], with one event per external function the file calls, written in
    the order of the source.  The libraries are not part of the repository:
    their behaviour is given by a handler on an explicit [World], driven by
    an [Env] that fixes every answer the program cannot control (whether
    the subsystem starts, which handle window creation returns, when the
    user asks to close the window).  Every library call is taken to return
    to its caller. *)

From Stdlib Require Import ZArith QArith Qreduction List String Ascii Bool Lia Lqa.
From ITree Require Import ITree.
Import ListNotations.
Import ITreeNotations.
Local Open Scope itree_scope.
Local Open Scope Z_scope.

(** ** Values *)

(** A [GLFWwindow*] (and the monitor/share arguments): an address, with
    [nullptr] the zero address. *)
Definition ptr := Z.
Definition nullptr : ptr := 0.

(** C truth of an [int] or of a pointer, as tested by [if (!x)] and
    [while (!x)]: [!x] holds exactly when [x] is zero. *)
Definition c_not (x : Z) : bool := Z.eqb x 0.

(** Constants of the OpenGL headers used by [display]. *)
Definition GL_COLOR_BUFFER_BIT : Z := 0x4000.
Definition GL_QUADS : Z := 0x0007.

(** The [GLfloat] literals of the source are [0.0f], [1.0f] and [-1.0f];
    each is an integer that binary32 represents exactly, so a [GLfloat]
    argument is carried as the rational it denotes. *)
Definition GLfloat := Q.

(** Functions of this translation unit whose address is taken. *)
Variant fnptr : Type := Fn_display.

(** ** Calls into the libraries *)

Variant callE : Type -> Type :=
| glClear (mask : Z) : callE unit
| glBegin (mode : Z) : callE unit
| glColor3f (r g b : GLfloat) : callE unit
| glVertex2f (x y : GLfloat) : callE unit
| glEnd : callE unit
| glFlush : callE unit
| glfwInit : callE Z
| glfwCreateWindow (width height : Z) (title : string) (monitor share : ptr)
    : callE ptr
| glfwTerminate : callE unit
| glfwMakeContextCurrent (window : ptr) : callE unit
| glfwSwapInterval (interval : Z) : callE unit
| glutDisplayFunc (callback : fnptr) : callE unit
| glfwWindowShouldClose (window : ptr) : callE Z
| glfwSwapBuffers (window : ptr) : callE unit
| glfwPollEvents : callE unit
| glfwDestroyWindow (window : ptr) : callE unit
| cerr_str (s : string) : callE unit      (* std::cerr << "..." *)
| cerr_endl : callE unit.                 (* std::cerr << std::endl *)

Definition call {X} (e : callE X) : itree callE X := ITree.trigger e.

(** ** The program *)

(** [void display()], lines 5-18. *)
Definition display : itree callE unit :=
  call (glClear GL_COLOR_BUFFER_BIT) ;;
  call (glBegin GL_QUADS) ;;
  call (glColor3f 0 0 0)%Q ;;
  call (glVertex2f (-1) (-1))%Q ;;
  call (glVertex2f 1 (-1))%Q ;;
  call (glVertex2f 1 1)%Q ;;
  call (glVertex2f (-1) 1)%Q ;;
  call glEnd ;;
  call glFlush.

(** Body of the function a [fnptr] points to. *)
Definition fn_body (f : fnptr) : itree callE unit :=
  match f with Fn_display => display end.

(** One turn of [while (!glfwWindowShouldClose(window)) { ... }], lines
    40-43: [inr tt] leaves the loop, [inl tt] goes round again. *)
Definition loop_body (window : ptr) (_ : unit) : itree callE (unit + unit) :=
  c <- call (glfwWindowShouldClose window) ;;
  if c_not c then
    call (glfwSwapBuffers window) ;;
    call glfwPollEvents ;;
    Ret (inl tt)
  else Ret (inr tt).

Definition run_loop (window : ptr) : itree callE unit :=
  ITree.iter (loop_body window) tt.

(** Lines 45-47. *)
Definition shutdown (window : ptr) : itree callE Z :=
  call (glfwDestroyWindow window) ;;
  call glfwTerminate ;;
  Ret 0.

(** Lines 36-47: what [main] does once it holds a window. *)
Definition with_window (window : ptr) : itree callE Z :=
  call (glfwMakeContextCurrent window) ;;
  call (glfwSwapInterval 1) ;;
  call (glutDisplayFunc Fn_display) ;;
  run_loop window ;;
  shutdown window.

(** [int main()], lines 20-48.  The result is the value [main] returns. *)
Definition main : itree callE Z :=
  ok <- call glfwInit ;;
  if c_not ok then
    call (cerr_str "Failed to initialize GLFW") ;;
    call cerr_endl ;;
    Ret (-1)
  else
    window <- call (glfwCreateWindow 800 600 "Chess Renderer" nullptr nullptr) ;;
    if c_not window then
      call glfwTerminate ;;
      call (cerr_str "Failed to create GLFW window") ;;
      call cerr_endl ;;
      Ret (-1)
    else with_window window.

(** ** The OpenGL state touched by [display]

    Only what the calls of [display] read or write is kept: the clear
    colour, the current colour, the primitive being assembled between
    [glBegin] and [glEnd], the viewport size in pixels and the colour buffer.
    [ops] records the drawing operations the pipeline has carried out. *)

Definition Color := (Q * Q * Q)%type.
Definition black : Color := (0, 0, 0)%Q.
Definition white : Color := (1, 1, 1)%Q.

Record Vertex := mkVertex { vx : Q; vy : Q; vcol : Color }.

Variant DrawOp :=
| OpClear (c : Color)
| OpPrimitive (mode : Z) (vs : list Vertex)
| OpFlush.

Record GLState := mkGL {
  clear_color : Color;
  cur_color : Color;
  building : option (Z * list Vertex);
  vp_width : Z;
  vp_height : Z;
  colorbuf : Z -> Z -> Color;
  ops : list DrawOp
}.

(** What the program cannot control. *)
Record Env := mkEnv {
  init_result : Z;              (* value returned by glfwInit *)
  create_result : ptr;          (* handle glfwCreateWindow would return *)
  close_request : nat -> bool;  (* does the k-th glfwPollEvents deliver a
                                   close request? *)
  shade : list Vertex -> Z -> Z -> list Q
                                (* interpolation weights the rasteriser
                                   gives the vertices of a primitive at a
                                   pixel *)
}.

(** Strict order on rationals, as a test. *)
Definition Qltb (x y : Q) : bool := negb (Qle_bool y x).

(** Normalised device coordinate of the centre of pixel [i] out of [n]. *)
Definition ndc (n i : Z) : Q := (inject_Z (2 * i + 1) / inject_Z n - 1)%Q.

(** Which side of the edge [a -> b] the point [(px, py)] lies on. *)
Definition edge (a b : Vertex) (px py : Q) : Q :=
  ((vx b - vx a) * (py - vy a) - (vy b - vy a) * (px - vx a))%Q.

(** A sample is covered when it lies strictly inside the quadrilateral,
    whichever way round the vertices were given. *)
Definition inside_quad (a b c d : Vertex) (px py : Q) : bool :=
  let e1 := edge a b px py in
  let e2 := edge b c px py in
  let e3 := edge c d px py in
  let e4 := edge d a px py in
  (Qltb 0 e1 && Qltb 0 e2 && Qltb 0 e3 && Qltb 0 e4)
  || (Qltb e1 0 && Qltb e2 0 && Qltb e3 0 && Qltb e4 0).

(** Weighted sum of one colour channel, stored in lowest terms. *)
Fixpoint weighted (ws : list Q) (cs : list Q) : Q :=
  match ws, cs with
  | w :: ws', c :: cs' => (w * c + weighted ws' cs')%Q
  | _, _ => 0%Q
  end.

(** The red, green and blue channels of a colour. *)
Definition chan_r (c : Color) : Q := fst (fst c).
Definition chan_g (c : Color) : Q := snd (fst c).
Definition chan_b (c : Color) : Q := snd c.

(** Colour of a fragment: the vertex colours blended with the weights
    [ws], channel by channel. *)
Definition mix (ws : list Q) (vs : list Vertex) : Color :=
  (Qred (weighted ws (map (fun v => chan_r (vcol v)) vs)),
   Qred (weighted ws (map (fun v => chan_g (vcol v)) vs)),
   Qred (weighted ws (map (fun v => chan_b (vcol v)) vs))).

(** Drawing one quadrilateral over [buf] in a viewport of [w] by [h]
    pixels: covered pixels take the blended colour, the others keep
    theirs. *)
Definition paint_quad (env : Env) (w h : Z) (a b c d : Vertex)
    (buf : Z -> Z -> Color) : Z -> Z -> Color :=
  fun i j =>
    if inside_quad a b c d (ndc w i) (ndc h j)
    then mix (shade env [a; b; c; d] i j) [a; b; c; d]
    else buf i j.

(** [GL_QUADS] takes the vertices four at a time; an incomplete last group
    is dropped. *)
Fixpoint paint_quads (env : Env) (w h : Z) (vs : list Vertex)
    (buf : Z -> Z -> Color) : Z -> Z -> Color :=
  match vs with
  | a :: b :: c :: d :: rest =>
      paint_quads env w h rest (paint_quad env w h a b c d buf)
  | _ => buf
  end.

(** [display] draws with [GL_QUADS] only; the model draws nothing for
    another mode. *)
Definition rasterize (env : Env) (mode : Z) (vs : list Vertex) (g : GLState)
    : Z -> Z -> Color :=
  if Z.eqb mode GL_QUADS
  then paint_quads env (vp_width g) (vp_height g) vs (colorbuf g)
  else colorbuf g.

(** Effect of one OpenGL call.  A call that OpenGL rejects in the current
    state (anything but colour and vertex calls between [glBegin] and
    [glEnd]; [glEnd] or a vertex outside) leaves the state unchanged. *)
Definition gl_clear (mask : Z) (g : GLState) : GLState :=
  match building g with
  | Some _ => g
  | None =>
      if Z.eqb (Z.land mask GL_COLOR_BUFFER_BIT) 0 then g
      else mkGL (clear_color g) (cur_color g) None (vp_width g) (vp_height g)
                (fun _ _ => clear_color g) (ops g ++ [OpClear (clear_color g)])
  end.

Definition gl_begin (mode : Z) (g : GLState) : GLState :=
  match building g with
  | Some _ => g
  | None => mkGL (clear_color g) (cur_color g) (Some (mode, []))
                 (vp_width g) (vp_height g) (colorbuf g) (ops g)
  end.

Definition gl_color (r gr b : Q) (g : GLState) : GLState :=
  mkGL (clear_color g) (r, gr, b) (building g)
       (vp_width g) (vp_height g) (colorbuf g) (ops g).

Definition gl_vertex (x y : Q) (g : GLState) : GLState :=
  match building g with
  | Some (mode, vs) =>
      mkGL (clear_color g) (cur_color g)
           (Some (mode, vs ++ [mkVertex x y (cur_color g)]))
           (vp_width g) (vp_height g) (colorbuf g) (ops g)
  | None => g
  end.

Definition gl_end (env : Env) (g : GLState) : GLState :=
  match building g with
  | Some (mode, vs) =>
      mkGL (clear_color g) (cur_color g) None (vp_width g) (vp_height g)
           (rasterize env mode vs g) (ops g ++ [OpPrimitive mode vs])
  | None => g
  end.

Definition gl_flush (g : GLState) : GLState :=
  match building g with
  | Some _ => g
  | None => mkGL (clear_color g) (cur_color g) None (vp_width g) (vp_height g)
                 (colorbuf g) (ops g ++ [OpFlush])
  end.

(** ** The world outside the program *)

Record Window := mkWindow {
  w_handle : ptr;
  w_width : Z;
  w_height : Z;
  w_title : string;
  w_should_close : bool
}.

(** A completed call with the value it returned. *)
Definition Call : Type := { X : Type & (callE X * X)%type }.
Definition returned {X} (e : callE X) (x : X) : Call := existT _ X (e, x).

Record World := mkWorld {
  glfw_up : bool;               (* initialised and not yet terminated *)
  win : option Window;          (* the live window, if any *)
  current : ptr;                (* window whose context is current *)
  swap_interval : option Z;
  display_cb : option fnptr;    (* callback registered with freeglut *)
  stderr : string;
  polls : nat;                  (* glfwPollEvents calls so far *)
  gl : GLState;
  calls : list Call             (* every completed call, oldest first *)
}.

(** Field updates. *)
Definition set_gl (g : GLState) (w : World) : World :=
  mkWorld (glfw_up w) (win w) (current w) (swap_interval w) (display_cb w)
          (stderr w) (polls w) g (calls w).

Definition set_win (up : bool) (o : option Window) (cur : ptr) (w : World)
    : World :=
  mkWorld up o cur (swap_interval w) (display_cb w)
          (stderr w) (polls w) (gl w) (calls w).

Definition put_stderr (s : string) (w : World) : World :=
  mkWorld (glfw_up w) (win w) (current w) (swap_interval w) (display_cb w)
          (stderr w ++ s) (polls w) (gl w) (calls w).

Definition record_call (c : Call) (w : World) : World :=
  mkWorld (glfw_up w) (win w) (current w) (swap_interval w) (display_cb w)
          (stderr w) (polls w) (gl w) (calls w ++ [c]).

(** What [std::endl] writes. *)
Definition newline : string := String "010"%char EmptyString.

(** Constants of the GLFW header. *)
Definition GLFW_TRUE : Z := 1.
Definition GLFW_FALSE : Z := 0.

(** The close flag of window [p]; unset when [p] is not the live window. *)
Definition flag_of (p : ptr) (w : World) : bool :=
  match win w with
  | Some x => Z.eqb (w_handle x) p && w_should_close x
  | None => false
  end.

(** Event processing: a close request sets the flag, nothing clears it. *)
Definition poll (env : Env) (w : World) : World :=
  mkWorld (glfw_up w)
    (match win w with
     | Some x => Some (mkWindow (w_handle x) (w_width x) (w_height x)
                         (w_title x)
                         (w_should_close x || close_request env (polls w)))
     | None => None
     end)
    (current w) (swap_interval w) (display_cb w) (stderr w)
    (S (polls w)) (gl w) (calls w).

(** What each call does to the world and what it returns.
    [glfwCreateWindow] gives the null handle when the subsystem is not up;
    a new window has its close flag unset.  [glfwTerminate] also destroys a
    window still alive.  [glutDisplayFunc] only stores the callback: no call
    of this program hands control to freeglut, so nothing here invokes
    it. *)
Definition handle (env : Env) {X} (e : callE X) (w : World) : World * X :=
  match e in callE T return World * T with
  | glClear mask => (set_gl (gl_clear mask (gl w)) w, tt)
  | glBegin mode => (set_gl (gl_begin mode (gl w)) w, tt)
  | glColor3f r g b => (set_gl (gl_color r g b (gl w)) w, tt)
  | glVertex2f x y => (set_gl (gl_vertex x y (gl w)) w, tt)
  | glEnd => (set_gl (gl_end env (gl w)) w, tt)
  | glFlush => (set_gl (gl_flush (gl w)) w, tt)
  | glfwInit =>
      (set_win (glfw_up w || negb (c_not (init_result env)))
               (win w) (current w) w,
       init_result env)
  | glfwCreateWindow width height title _ _ =>
      if glfw_up w && negb (c_not (create_result env))
      then (set_win true
              (Some (mkWindow (create_result env) width height title false))
              (current w) w,
            create_result env)
      else (w, nullptr)
  | glfwTerminate => (set_win false None nullptr w, tt)
  | glfwMakeContextCurrent p => (set_win (glfw_up w) (win w) p w, tt)
  | glfwSwapInterval i =>
      (mkWorld (glfw_up w) (win w) (current w) (Some i) (display_cb w)
               (stderr w) (polls w) (gl w) (calls w), tt)
  | glutDisplayFunc f =>
      (mkWorld (glfw_up w) (win w) (current w) (swap_interval w) (Some f)
               (stderr w) (polls w) (gl w) (calls w), tt)
  | glfwWindowShouldClose p =>
      (w, if flag_of p w then GLFW_TRUE else GLFW_FALSE)
  | glfwSwapBuffers _ => (w, tt)
  | glfwPollEvents => (poll env w, tt)
  | glfwDestroyWindow p =>
      (match win w with
       | Some x =>
           if Z.eqb (w_handle x) p
           then set_win (glfw_up w) None
                  (if Z.eqb (current w) p then nullptr else current w) w
           else w
       | None => w
       end, tt)
  | cerr_str s => (put_stderr s w, tt)
  | cerr_endl => (put_stderr newline w, tt)
  end.

(** A call as the program sees it: handled, then logged with its answer. *)
Definition perform (env : Env) {X} (e : callE X) (w : World) : World * X :=
  let (w', x) := handle env e w in (record_call (returned e x) w', x).

(** ** Running a program

    [exec env fuel t w] runs [t] from world [w] for at most [fuel] nodes of
    the tree and gives the world reached, with the result when the program
    has returned. *)
Fixpoint exec (env : Env) (fuel : nat) {R} (t : itree callE R) (w : World)
    : World * option R :=
  match fuel with
  | O => (w, None)
  | S n =>
      match observe t with
      | RetF r => (w, Some r)
      | TauF t' => exec env n t' w
      | VisF e k => let (w', x) := perform env e w in exec env n (k x) w'
      end
  end.

(** The OpenGL state of a context nothing has been drawn in; the model
    leaves its viewport empty. *)
Definition gl0 : GLState :=
  mkGL black white None 0 0 (fun _ _ => black) [].

(** The world at process start. *)
Definition world0 : World :=
  mkWorld false None nullptr None None EmptyString O gl0 [].

(** World left by one completed call. *)
Definition after (env : Env) {X} (e : callE X) (w : World) : World :=
  fst (perform env e w).

(** Value a call returns in a given world. *)
Definition answer (env : Env) {X} (e : callE X) (w : World) : X :=
  snd (handle env e w).

(** ** Program points and the worlds along a run of [main] *)

(** The call of line 28. *)
Definition create_call : callE ptr :=
  glfwCreateWindow 800 600 "Chess Renderer" nullptr nullptr.

(** Did [glfwInit] succeed, did [glfwCreateWindow] return a handle? *)
Definition init_ok (env : Env) : bool := negb (c_not (init_result env)).
Definition create_ok (env : Env) : bool := negb (c_not (create_result env)).

(** The worlds after line 22, after lines 23-24, after line 28 and after
    lines 30-32. *)
Definition w_init (env : Env) : World := after env glfwInit world0.

Definition w_init_failed (env : Env) : World :=
  after env cerr_endl
    (after env (cerr_str "Failed to initialize GLFW") (w_init env)).

Definition w_created (env : Env) : World := after env create_call (w_init env).

Definition w_create_failed (env : Env) : World :=
  after env cerr_endl
    (after env (cerr_str "Failed to create GLFW window")
       (after env glfwTerminate (w_created env))).

(** The world in which the loop is entered. *)
Definition w_ready (env : Env) : World :=
  after env (glutDisplayFunc Fn_display)
    (after env (glfwSwapInterval 1)
       (after env (glfwMakeContextCurrent (create_result env))
          (w_created env))).

(** Lines 40-47, entered at the loop condition. *)
Definition loop_then_shutdown (p : ptr) : itree callE Z :=
  run_loop p ;; shutdown p.

(** What [ITree.iter] does with the result of a turn. *)
Definition continue_loop (p : ptr) (lr : unit + unit) : itree callE unit :=
  match lr with
  | inl l => Tau (ITree.iter (loop_body p) l)
  | inr r => Ret r
  end.

(** Lines 41-47 entered inside the loop body: the loop condition has just
    held and the buffers are about to be swapped. *)
Definition in_body (p : ptr) : itree callE Z :=
  ITree.bind
    (ITree.bind
       (call (glfwSwapBuffers p) ;; call glfwPollEvents ;; Ret (inl tt))
       (continue_loop p))
    (fun _ => shutdown p).

(** One turn of the loop with the flag found unset. *)
Definition open_turn (env : Env) (p : ptr) (w : World) : World :=
  after env glfwPollEvents
    (after env (glfwSwapBuffers p)
       (after env (glfwWindowShouldClose p) w)).

(** Leaving the loop: the flag is found set, then lines 45-46. *)
Definition close_exit (env : Env) (p : ptr) (w : World) : World :=
  after env glfwTerminate
    (after env (glfwDestroyWindow p)
       (after env (glfwWindowShouldClose p) w)).

(** [k] consecutive turns with the flag unset. *)
Fixpoint turns (env : Env) (p : ptr) (k : nat) (w : World) : World :=
  match k with
  | O => w
  | S k' => turns env p k' (open_turn env p w)
  end.

(** The flag is unset at the head of each of the first [k] turns. *)
Definition open_until (env : Env) (p : ptr) (k : nat) (w : World) : Prop :=
  forall j, (j < k)%nat -> flag_of p (turns env p j w) = false.

(** Has some poll among the [k] starting at number [from] delivered a close
    request? *)
Fixpoint any_request (env : Env) (from : nat) (k : nat) : bool :=
  match k with
  | O => false
  | S k' => close_request env from || any_request env (S from) k'
  end.

(** Everything but the window's flag, the poll count and the call log is
    the same after a turn as before it. *)
Definition same_but_flag (w1 w2 : World) : Prop :=
  glfw_up w2 = glfw_up w1
  /\ current w2 = current w1
  /\ swap_interval w2 = swap_interval w1
  /\ display_cb w2 = display_cb w1
  /\ stderr w2 = stderr w1
  /\ gl w2 = gl w1
  /\ option_map (fun x => (w_handle x, w_width x, w_height x, w_title x))
       (win w2)
     = option_map (fun x => (w_handle x, w_width x, w_height x, w_title x))
         (win w1).

(** ** The call log *)

(** The calls of one turn that finds the flag unset. *)
Definition turn_calls (p : ptr) : list Call :=
  [returned (glfwWindowShouldClose p) GLFW_FALSE;
   returned (glfwSwapBuffers p) tt;
   returned glfwPollEvents tt].

(** The calls that leave the loop and shut down. *)
Definition exit_calls (p : ptr) : list Call :=
  [returned (glfwWindowShouldClose p) GLFW_TRUE;
   returned (glfwDestroyWindow p) tt;
   returned glfwTerminate tt].

(** [cs] repeated [k] times. *)
Fixpoint repeat_calls (k : nat) (cs : list Call) : list Call :=
  match k with
  | O => []
  | S k' => cs ++ repeat_calls k' cs
  end.

(** The calls one invocation makes, in order. *)
Definition display_calls : list Call :=
  [returned (glClear GL_COLOR_BUFFER_BIT) tt;
   returned (glBegin GL_QUADS) tt;
   returned (glColor3f 0 0 0) tt;
   returned (glVertex2f (-1) (-1)) tt;
   returned (glVertex2f 1 (-1)) tt;
   returned (glVertex2f 1 1) tt;
   returned (glVertex2f (-1) 1) tt;
   returned glEnd tt;
   returned glFlush tt]%Q.

(** Kinds of logged calls.  A [glfwInit] succeeded when it returned
    non-zero, a [glfwCreateWindow] when it returned a non-null handle. *)
Definition init_succeeded (c : Call) : bool :=
  match c with
  | existT _ _ (e, x) =>
      match e in callE T return T -> bool with
      | glfwInit => fun r => negb (c_not r)
      | _ => fun _ => false
      end x
  end.

Definition create_succeeded (c : Call) : bool :=
  match c with
  | existT _ _ (e, x) =>
      match e in callE T return T -> bool with
      | glfwCreateWindow _ _ _ _ _ => fun r => negb (c_not r)
      | _ => fun _ => false
      end x
  end.

Definition is_create (c : Call) : bool :=
  match c with
  | existT _ _ (glfwCreateWindow _ _ _ _ _, _) => true
  | _ => false
  end.

Definition is_terminate (c : Call) : bool :=
  match c with
  | existT _ _ (glfwTerminate, _) => true
  | _ => false
  end.

Definition is_destroy (c : Call) : bool :=
  match c with
  | existT _ _ (glfwDestroyWindow _, _) => true
  | _ => false
  end.

(** Calls into OpenGL proper: the calls only [display] makes. *)
Definition is_gl (c : Call) : bool :=
  match c with
  | existT _ _ (glClear _, _) | existT _ _ (glBegin _, _)
  | existT _ _ (glColor3f _ _ _, _) | existT _ _ (glVertex2f _ _, _)
  | existT _ _ (glEnd, _) | existT _ _ (glFlush, _) => true
  | _ => false
  end.

(** A logged call that passes a size and a title passes these. *)
Definition create_args_ok (c : Call) : bool :=
  match c with
  | existT _ _ (glfwCreateWindow width height title _ _, _) =>
      Z.eqb width 800 && Z.eqb height 600
      && String.eqb title "Chess Renderer"
  | _ => true
  end.

(** Number of logged calls of a kind. *)
Definition count (f : Call -> bool) (cs : list Call) : nat :=
  List.length (filter f cs).

(** ** The calls a program can make *)

(** The calls written in [main], with the arguments written there (the
    window argument is whatever handle [main] holds). *)
Variant main_call : forall X, callE X -> Prop :=
| mc_init : main_call Z glfwInit
| mc_init_failed : main_call unit (cerr_str "Failed to initialize GLFW")
| mc_create :
    main_call ptr (glfwCreateWindow 800 600 "Chess Renderer" nullptr nullptr)
| mc_create_failed : main_call unit (cerr_str "Failed to create GLFW window")
| mc_endl : main_call unit cerr_endl
| mc_terminate : main_call unit glfwTerminate
| mc_current p : main_call unit (glfwMakeContextCurrent p)
| mc_interval : main_call unit (glfwSwapInterval 1)
| mc_register : main_call unit (glutDisplayFunc Fn_display)
| mc_check p : main_call Z (glfwWindowShouldClose p)
| mc_swap p : main_call unit (glfwSwapBuffers p)
| mc_poll : main_call unit glfwPollEvents
| mc_destroy p : main_call unit (glfwDestroyWindow p).

(** The calls of lines 40-46, on the window [p]. *)
Variant loop_call (p : ptr) : forall X, callE X -> Prop :=
| lc_check : loop_call p Z (glfwWindowShouldClose p)
| lc_swap : loop_call p unit (glfwSwapBuffers p)
| lc_poll : loop_call p unit glfwPollEvents
| lc_destroy : loop_call p unit (glfwDestroyWindow p)
| lc_terminate : loop_call p unit glfwTerminate.

(** The call belongs to those [main] can make. *)
Definition logged_main_call (c : Call) : Prop :=
  main_call (projT1 c) (fst (projT2 c)).

(** Down to depth [fuel], and whatever the calls return, [t] makes only
    calls in [A]. *)
Fixpoint issues_only (A : forall X, callE X -> Prop) (fuel : nat) {R}
    (t : itree callE R) : Prop :=
  match fuel with
  | O => True
  | S n =>
      match observe t with
      | RetF _ => True
      | TauF t' => issues_only A n t'
      | VisF e k => A _ e /\ forall x, issues_only A n (k x)
      end
  end.

(** ** Invoking [display] *)

(** The world after one invocation of [display]. *)
Definition run_display (env : Env) (w : World) : World :=
  fst (exec env 10 display w).

(** [n] invocations in a row. *)
Fixpoint run_display_times (env : Env) (n : nat) (w : World) : World :=
  match n with
  | O => w
  | S n' => run_display_times env n' (run_display env w)
  end.

(** The four corners of normalised device coordinates, each black. *)
Definition corner_a : Vertex := mkVertex (-1) (-1) black.
Definition corner_b : Vertex := mkVertex 1 (-1) black.
Definition corner_c : Vertex := mkVertex 1 1 black.
Definition corner_d : Vertex := mkVertex (-1) 1 black.
Definition full_quad : list Vertex := [corner_a; corner_b; corner_c; corner_d].

(** Same picture and same drawing state; the record of operations carried
    out is history, not state. *)
Definition same_image (g1 g2 : GLState) : Prop :=
  clear_color g1 = clear_color g2
  /\ cur_color g1 = cur_color g2
  /\ building g1 = building g2
  /\ vp_width g1 = vp_width g2
  /\ vp_height g1 = vp_height g2
  /\ colorbuf g1 = colorbuf g2.

(** Size and title of the live window, if there is one. *)
Definition attributes_fixed (w : World) : Prop :=
  match win w with
  | Some x =>
      w_width x = 800 /\ w_height x = 600
      /\ w_title x = "Chess Renderer"%string
  | None => True
  end.

(** ** Sample environments and worlds *)

(** The subsystem does not start. *)
Definition env_no_display : Env :=
  mkEnv 0 0 (fun _ => false) (fun _ _ _ => []).

(** The subsystem starts, but no window can be created. *)
Definition env_no_window : Env :=
  mkEnv 1 0 (fun _ => false) (fun _ _ _ => []).

(** The user asks to close the window during the third round of event
    processing. *)
Definition env_closing : Env :=
  mkEnv 1 77 (fun k => Nat.eqb k 2) (fun _ _ _ => []).

(** A context with an 800 by 600 viewport, cleared to white so far. *)
Definition world_white : World :=
  mkWorld true None 77 (Some 1) (Some Fn_display) EmptyString O
          (mkGL white white None 800 600 (fun _ _ => white) []) [].

(** A live window 77 whose close flag is set. *)
Definition world_closing : World :=
  mkWorld true (Some (mkWindow 77 800 600 "Chess Renderer" true)) 77 (Some 1)
          (Some Fn_display) EmptyString 3 gl0 [].

(** ** Further kinds of logged calls, and the GLFW life cycle *)

Definition is_swap (c : Call) : bool :=
  match c with
  | existT _ _ (glfwSwapBuffers _, _) => true
  | _ => false
  end.

Definition is_poll (c : Call) : bool :=
  match c with
  | existT _ _ (glfwPollEvents, _) => true
  | _ => false
  end.

(** A [glfwWindowShouldClose] that returned zero, so that the loop
    condition held, and one that returned non-zero. *)
Definition check_unset (c : Call) : bool :=
  match c with
  | existT _ _ (e, x) =>
      match e in callE T return T -> bool with
      | glfwWindowShouldClose _ => fun r => c_not r
      | _ => fun _ => false
      end x
  end.

Definition check_set (c : Call) : bool :=
  match c with
  | existT _ _ (e, x) =>
      match e in callE T return T -> bool with
      | glfwWindowShouldClose _ => fun r => negb (c_not r)
      | _ => fun _ => false
      end x
  end.

(** Where a client of GLFW stands: before initialisation, after a failed
    initialisation, initialised without a window, holding window [p] (with
    its context current or not), or terminated. *)
Variant Phase :=
| Start
| InitFailed
| Up
| Open (p : ptr) (bound : bool)
| Down.

(** The rules of use of GLFW and OpenGL that the calls of this program
    fall under; [None] is a call out of place.  Initialisation comes first
    and once; a window is created only while the subsystem is up; a call on
    a window names the window held; the swap interval and OpenGL calls need
    a current context; the window is destroyed before the subsystem is
    terminated; nothing follows termination.  Writing to standard error and
    registering the freeglut callback are not GLFW calls and are not
    constrained here. *)
Definition glfw_step (s : Phase) (c : Call) : option Phase :=
  match c with
  | existT _ _ (e, x) =>
      match e in callE T return T -> option Phase with
      | glfwInit => fun r =>
          match s with
          | Start => Some (if c_not r then InitFailed else Up)
          | _ => None
          end
      | glfwCreateWindow _ _ _ _ _ => fun r =>
          match s with
          | Up => Some (if c_not r then Up else Open r false)
          | _ => None
          end
      | glfwTerminate => fun _ =>
          match s with
          | Up => Some Down
          | _ => None
          end
      | glfwMakeContextCurrent p => fun _ =>
          match s with
          | Open q _ => if Z.eqb p q then Some (Open q true) else None
          | _ => None
          end
      | glfwSwapInterval _ => fun _ =>
          match s with
          | Open _ true => Some s
          | _ => None
          end
      | glfwWindowShouldClose p => fun _ =>
          match s with
          | Open q _ => if Z.eqb p q then Some s else None
          | _ => None
          end
      | glfwSwapBuffers p => fun _ =>
          match s with
          | Open q _ => if Z.eqb p q then Some s else None
          | _ => None
          end
      | glfwPollEvents => fun _ =>
          match s with
          | Up | Open _ _ => Some s
          | _ => None
          end
      | glfwDestroyWindow p => fun _ =>
          match s with
          | Open q _ => if Z.eqb p q then Some Up else None
          | _ => None
          end
      | glClear _ | glBegin _ | glColor3f _ _ _ | glVertex2f _ _
      | glEnd | glFlush => fun _ =>
          match s with
          | Open _ true => Some s
          | _ => None
          end
      | glutDisplayFunc _ | cerr_str _ | cerr_endl => fun _ => Some s
      end x
  end.

Fixpoint glfw_run (s : Phase) (cs : list Call) : option Phase :=
  match cs with
  | [] => Some s
  | c :: cs' =>
      match glfw_step s c with
      | Some s' => glfw_run s' cs'
      | None => None
      end
  end.

(** The calls of lines 22-38 when both start-up steps succeed. *)
Definition setup_calls (env : Env) : list Call :=
  [returned glfwInit (init_result env);
   returned create_call (create_result env);
   returned (glfwMakeContextCurrent (create_result env)) tt;
   returned (glfwSwapInterval 1) tt;
   returned (glutDisplayFunc Fn_display) tt].

(** No close request ever comes. *)
Definition env_never_closes : Env :=
  mkEnv 1 77 (fun _ => false) (fun _ _ _ => []).

(** The two diagnostics of [main]. *)
Definition msg_init_failed : string := "Failed to initialize GLFW".
Definition msg_create_failed : string := "Failed to create GLFW window".

(** The window [main] created is alive, its context is current, the
    subsystem is up and buffer swaps wait for one vertical refresh. *)
Definition window_live (env : Env) (w : World) : Prop :=
  exists x,
    win w = Some x
    /\ w_handle x = create_result env
    /\ current w = create_result env
    /\ glfw_up w = true
    /\ swap_interval w = Some 1.

(** * Properties *)

(** ** Running the loop

    A turn that finds the flag unset takes four steps (the check, the swap,
    the poll and the jump back) and arrives at the head of the same loop; a
    check that finds it set is followed by the shutdown. *)

Lemma turn_open_exec env p w n :
  flag_of p w = false ->
  exec env (4 + n) (loop_then_shutdown p) w
  = exec env n (loop_then_shutdown p) (open_turn env p w).
Proof.
  intros Hf. unfold open_turn, after. cbn. rewrite Hf. cbn. reflexivity.
Qed.

Lemma turn_closed_exec env p w n :
  flag_of p w = true ->
  exec env (4 + n) (loop_then_shutdown p) w = (close_exit env p w, Some 0).
Proof.
  intros Hf. unfold close_exit, after. cbn. rewrite Hf. cbn. reflexivity.
Qed.

(** *** More fuel, and the log of a call *)

Lemma exec_more env R (t : itree callE R) n :
  forall w w' r m,
    exec env n t w = (w', Some r) -> (n <= m)%nat ->
    exec env m t w = (w', Some r).
Proof.
  revert t. induction n as [|n IH]; intros t w w' r m H Hle.
  - discriminate H.
  - destruct m as [|m]; [lia|]. cbn in *.
    destruct (observe t) as [x | t' | X e k].
    + exact H.
    + apply IH with (m := m) in H; [exact H | lia].
    + destruct (perform env e w) as [w1 x].
      apply IH with (m := m) in H; [exact H | lia].
Qed.

Lemma handle_calls env X (e : callE X) w :
  calls (fst (handle env e w)) = calls w.
Proof.
  destruct e; cbn; try reflexivity.
  - destruct (glfw_up w && negb (c_not (create_result env))); reflexivity.
  - destruct (win w) as [x|]; [|reflexivity].
    destruct (w_handle x =? window); reflexivity.
Qed.

Lemma calls_after env X (e : callE X) w :
  calls (after env e w) = calls w ++ [returned e (answer env e w)].
Proof.
  unfold answer, after, perform. pose proof (handle_calls env X e w) as H.
  destruct (handle env e w) as [w1 x]. cbn in *. rewrite H. reflexivity.
Qed.

Lemma open_until_S env p k w :
  flag_of p w = false ->
  open_until env p k (open_turn env p w) ->
  open_until env p (S k) w.
Proof.
  intros H0 H j Hj. destruct j as [|j]; [exact H0|].
  cbn. apply H. lia.
Qed.

Lemma open_until_inv env p k w :
  open_until env p (S k) w ->
  flag_of p w = false /\ open_until env p k (open_turn env p w).
Proof.
  intros H. split.
  - apply (H O). lia.
  - intros j Hj. apply (H (S j)). lia.
Qed.

Lemma turns_exec env p k :
  forall w n,
    open_until env p k w ->
    exec env (4 * k + n) (loop_then_shutdown p) w
    = exec env n (loop_then_shutdown p) (turns env p k w).
Proof.
  induction k as [|k IH]; intros w n H.
  - reflexivity.
  - apply open_until_inv in H. destruct H as [H0 H].
    replace (4 * S k + n)%nat with (4 + (4 * k + n))%nat by lia.
    rewrite turn_open_exec by exact H0.
    cbn [turns]. apply IH. exact H.
Qed.

(** Whenever the loop-and-shutdown part returns, it has made some number of
    open turns, then found the flag set, and shut down with result 0. *)
Lemma tail_returns env p fuel :
  forall w w' r,
    exec env fuel (loop_then_shutdown p) w = (w', Some r) ->
    exists k,
      open_until env p k w /\
      flag_of p (turns env p k w) = true /\
      w' = close_exit env p (turns env p k w) /\
      r = 0 /\ (4 * k + 4 <= fuel)%nat.
Proof.
  induction fuel as [fuel IH] using lt_wf_ind. intros w w' r H.
  destruct (flag_of p w) eqn:Hf.
  - destruct fuel as [|[|[|[|n]]]];
      try (cbn in H; rewrite ?Hf in H; cbn in H; discriminate H).
    change (S (S (S (S n)))) with (4 + n)%nat in H.
    rewrite (turn_closed_exec env p w n Hf) in H.
    inversion H; subst. exists O. cbn.
    repeat split; auto; try lia. intros j Hj; lia.
  - destruct fuel as [|[|[|[|n]]]];
      try (cbn in H; rewrite ?Hf in H; cbn in H; discriminate H).
    change (S (S (S (S n)))) with (4 + n)%nat in H.
    rewrite (turn_open_exec env p w n Hf) in H.
    apply IH in H; [|lia].
    destruct H as (k & Hopen & Hflag & Hw & Hr & Hle).
    exists (S k). cbn [turns]. repeat split; auto; try lia.
    apply open_until_S; assumption.
Qed.

(** *** The calls [main] can make *)

(** One more node of the tree: a call in the alphabet, any answer. *)
Ltac next_call :=
  match goal with
  | |- issues_only _ ?n _ => destruct n; [exact I|]; cbn
  end;
  try (split; [constructor|]; intros ?).

Lemma loop_issues_strict p fuel :
  issues_only (loop_call p) fuel (loop_then_shutdown p).
Proof.
  induction fuel as [fuel IH] using lt_wf_ind.
  next_call. destruct fuel as [|fuel]; [exact I|].
  destruct x as [|c|c]; cbn.
  - split; [constructor|]; intros ?. next_call.
    destruct fuel as [|fuel]; [exact I|]. cbn. apply IH. lia.
  - split; [constructor|]; intros ?. next_call.
    destruct fuel; exact I.
  - split; [constructor|]; intros ?. next_call.
    destruct fuel; exact I.
Qed.

Lemma issues_only_weaken (A B : forall X, callE X -> Prop) :
  (forall X e, A X e -> B X e) ->
  forall fuel R (t : itree callE R),
    issues_only A fuel t -> issues_only B fuel t.
Proof.
  intros HAB. induction fuel as [|n IH]; intros R t H; [exact I|].
  cbn in *. destruct (observe t) as [r | t' | X e k].
  - exact I.
  - apply IH. exact H.
  - destruct H as [Ha Hk]. split; [apply HAB; exact Ha|].
    intros x. apply IH. apply Hk.
Qed.

Lemma loop_issues p fuel :
  issues_only main_call fuel (loop_then_shutdown p).
Proof.
  apply (issues_only_weaken (loop_call p)); [|apply loop_issues_strict].
  intros X e H. destruct H; constructor.
Qed.

Lemma main_issues fuel : issues_only main_call fuel main.
Proof.
  next_call. destruct fuel as [|fuel]; [exact I|].
  destruct x as [|ok|ok]; cbn.
  - split; [constructor|]; intros ?. next_call.
    destruct fuel; exact I.
  - split; [constructor|]; intros window.
    destruct fuel as [|fuel]; [exact I|].
    destruct window; cbn; split; try constructor; intros ?.
    + do 2 next_call. destruct fuel; exact I.
    + do 2 next_call. destruct fuel; [exact I|].
      exact (loop_issues _ (S fuel)).
    + do 2 next_call. destruct fuel; [exact I|].
      exact (loop_issues _ (S fuel)).
  - split; [constructor|]; intros window.
    destruct fuel as [|fuel]; [exact I|].
    destruct window; cbn; split; try constructor; intros ?.
    + do 2 next_call. destruct fuel; exact I.
    + do 2 next_call. destruct fuel; [exact I|].
      exact (loop_issues _ (S fuel)).
    + do 2 next_call. destruct fuel; [exact I|].
      exact (loop_issues _ (S fuel)).
Qed.

(** A property of the world that every call in [A] preserves holds after
    any run of a program that makes only calls in [A]. *)
Lemma exec_invariant env (A : forall X, callE X -> Prop) (P : World -> Prop) :
  (forall X (e : callE X) w, A X e -> P w -> P (after env e w)) ->
  forall fuel R (t : itree callE R) w,
    issues_only A fuel t -> P w -> P (fst (exec env fuel t w)).
Proof.
  intros Hstep. induction fuel as [|n IH]; intros R t w Hi Hw.
  - exact Hw.
  - cbn in *. destruct (observe t) as [r | t' | X e k].
    + exact Hw.
    + apply IH; assumption.
    + destruct Hi as [Ha Hk].
      specialize (Hstep X e w Ha Hw). unfold after in Hstep.
      destruct (perform env e w) as [w1 x]. cbn in Hstep.
      apply IH; [apply Hk | exact Hstep].
Qed.

Lemma main_invariant env (P : World -> Prop) :
  P world0 ->
  (forall X (e : callE X) w, main_call X e -> P w -> P (after env e w)) ->
  forall fuel, P (fst (exec env fuel main world0)).
Proof.
  intros H0 Hstep fuel.
  apply (exec_invariant env main_call P Hstep).
  - apply main_issues.
  - exact H0.
Qed.

(** *** The three ways through [main] *)

Lemma exec_bind_ret env n X R (x : X) (k : X -> itree callE R) w :
  exec env n (ITree.bind (Ret x) k) w = exec env n (k x) w.
Proof. destruct n; reflexivity. Qed.

Lemma exec_call env n X R (e : callE X) (k : X -> itree callE R) w :
  exec env (S n) (ITree.bind (call e) k) w
  = exec env n (k (answer env e w)) (after env e w).
Proof.
  unfold answer, after, perform. cbn. unfold perform.
  destruct (handle env e w) as [w1 x]. cbn. apply exec_bind_ret.
Qed.

Lemma main_init_failed env n :
  init_ok env = false ->
  exec env (4 + n) main world0 = (w_init_failed env, Some (-1)).
Proof.
  unfold init_ok. intros Hi. apply negb_false_iff in Hi.
  unfold main. cbn [Nat.add]. rewrite exec_call.
  change (answer env glfwInit world0) with (init_result env).
  rewrite Hi. rewrite !exec_call. reflexivity.
Qed.

Lemma create_answer env :
  init_ok env = true ->
  answer env create_call (w_init env) = create_result env.
Proof.
  unfold init_ok. intros Hi. unfold answer. cbn. rewrite Hi. cbn.
  destruct (create_result env); reflexivity.
Qed.

Lemma main_create_failed env n :
  init_ok env = true -> create_ok env = false ->
  exec env (6 + n) main world0 = (w_create_failed env, Some (-1)).
Proof.
  intros Hi Hc. pose proof (create_answer env Hi) as Ha.
  unfold init_ok, create_ok in *.
  apply negb_true_iff in Hi. apply negb_false_iff in Hc.
  unfold main. cbn [Nat.add]. rewrite exec_call.
  change (answer env glfwInit world0) with (init_result env).
  rewrite Hi. rewrite exec_call.
  fold create_call. fold (w_init env). rewrite Ha, Hc.
  rewrite !exec_call. reflexivity.
Qed.

Lemma main_enters_loop env n :
  init_ok env = true -> create_ok env = true ->
  exec env (5 + n) main world0
  = exec env n (loop_then_shutdown (create_result env)) (w_ready env).
Proof.
  intros Hi Hc. pose proof (create_answer env Hi) as Ha.
  unfold init_ok, create_ok in *.
  apply negb_true_iff in Hi. apply negb_true_iff in Hc.
  unfold main. cbn [Nat.add]. rewrite exec_call.
  change (answer env glfwInit world0) with (init_result env).
  rewrite Hi. rewrite exec_call.
  fold create_call. fold (w_init env). rewrite Ha, Hc.
  unfold with_window. rewrite !exec_call. reflexivity.
Qed.

(** Every returning run of [main] took one of the three ways. *)
Lemma main_returns env fuel w' r :
  exec env fuel main world0 = (w', Some r) ->
  (init_ok env = false /\ r = -1 /\ w' = w_init_failed env)
  \/ (init_ok env = true /\ create_ok env = false /\ r = -1
      /\ w' = w_create_failed env)
  \/ (init_ok env = true /\ create_ok env = true /\ r = 0
      /\ exists k,
           open_until env (create_result env) k (w_ready env)
           /\ flag_of (create_result env)
                (turns env (create_result env) k (w_ready env)) = true
           /\ w' = close_exit env (create_result env)
                     (turns env (create_result env) k (w_ready env))).
Proof.
  intros H.
  destruct (init_ok env) eqn:Hi.
  - destruct (create_ok env) eqn:Hc.
    + right; right.
      apply exec_more with (m := (5 + fuel)%nat) in H; [|lia].
      rewrite main_enters_loop in H by assumption.
      apply tail_returns in H.
      destruct H as (k & H1 & H2 & H3 & H4 & H5).
      repeat split; auto. exists k. repeat split; auto.
    + right; left.
      apply exec_more with (m := (6 + fuel)%nat) in H; [|lia].
      rewrite main_create_failed in H by assumption.
      inversion H; subst. repeat split; auto.
  - left.
    apply exec_more with (m := (4 + fuel)%nat) in H; [|lia].
    rewrite main_init_failed in H by assumption.
    inversion H; subst. repeat split; auto.
Qed.

(** *** What the loop does to the world *)

Lemma calls_open_turn env p w :
  flag_of p w = false ->
  calls (open_turn env p w) = calls w ++ turn_calls p.
Proof.
  intros Hf. unfold open_turn. rewrite !calls_after. cbn.
  rewrite Hf. rewrite <- !app_assoc. reflexivity.
Qed.

Lemma calls_close_exit env p w :
  flag_of p w = true ->
  calls (close_exit env p w) = calls w ++ exit_calls p.
Proof.
  intros Hf. unfold close_exit. rewrite !calls_after. cbn.
  rewrite Hf. rewrite <- !app_assoc. reflexivity.
Qed.

Lemma calls_turns env p k :
  forall w,
    open_until env p k w ->
    calls (turns env p k w) = calls w ++ repeat_calls k (turn_calls p).
Proof.
  induction k as [|k IH]; intros w H.
  - cbn. rewrite app_nil_r. reflexivity.
  - apply open_until_inv in H. destruct H as [H0 H].
    cbn [turns repeat_calls]. rewrite IH by exact H.
    rewrite calls_open_turn by exact H0.
    rewrite <- app_assoc. reflexivity.
Qed.

Lemma any_request_at env k :
  forall from j,
    (j < k)%nat -> close_request env (from + j) = true ->
    any_request env from k = true.
Proof.
  induction k as [|k IH]; intros from j Hj Hr; [lia|].
  cbn. destruct j as [|j].
  - rewrite Nat.add_0_r in Hr. rewrite Hr. reflexivity.
  - rewrite (IH (S from) j); [apply orb_true_r | lia |].
    rewrite <- Hr. f_equal. lia.
Qed.

(** The flag of the live window after [k] turns: set exactly when it was
    set before or a close request has come in since. *)
Lemma flag_turns env p k :
  forall w x,
    win w = Some x -> w_handle x = p ->
    flag_of p (turns env p k w)
    = w_should_close x || any_request env (polls w) k.
Proof.
  induction k as [|k IH]; intros w x Hw Hp.
  - cbn. unfold flag_of. rewrite Hw, Hp, Z.eqb_refl, orb_false_r.
    reflexivity.
  - cbn [turns any_request].
    rewrite (IH (open_turn env p w)
               (mkWindow (w_handle x) (w_width x) (w_height x) (w_title x)
                  (w_should_close x || close_request env (polls w)))).
    + cbn. rewrite orb_assoc. reflexivity.
    + cbn. rewrite Hw. reflexivity.
    + exact Hp.
Qed.

(** Among [n] turns, the first at whose head the flag is set. *)
Lemma first_closed env p n :
  forall w,
    flag_of p (turns env p n w) = true ->
    exists k, (k <= n)%nat /\ open_until env p k w
              /\ flag_of p (turns env p k w) = true.
Proof.
  induction n as [|n IH]; intros w H.
  - exists O. repeat split; auto. intros j Hj; lia.
  - destruct (flag_of p w) eqn:Hf.
    + exists O. repeat split; auto; try lia. intros j Hj; lia.
    + cbn [turns] in H. apply IH in H.
      destruct H as (k & Hk & Ho & Hc).
      exists (S k). repeat split; auto; try lia.
      apply open_until_S; assumption.
Qed.

Lemma same_but_flag_refl w : same_but_flag w w.
Proof. repeat split. Qed.

Lemma same_but_flag_trans w1 w2 w3 :
  same_but_flag w1 w2 -> same_but_flag w2 w3 -> same_but_flag w1 w3.
Proof.
  unfold same_but_flag. intros H1 H2.
  repeat match goal with H : _ /\ _ |- _ => destruct H end.
  repeat split; congruence.
Qed.

Lemma open_turn_same env p w : same_but_flag w (open_turn env p w).
Proof.
  unfold same_but_flag. cbn. repeat split.
  destruct (win w); reflexivity.
Qed.

Lemma turns_same env p k : forall w, same_but_flag w (turns env p k w).
Proof.
  induction k as [|k IH]; intros w.
  - apply same_but_flag_refl.
  - cbn [turns]. eapply same_but_flag_trans; [apply open_turn_same | apply IH].
Qed.

(** *** Running [display] *)

Lemma display_returns env w fuel :
  (10 <= fuel)%nat ->
  exec env fuel display w = (run_display env w, Some tt).
Proof.
  intros Hle. apply exec_more with (n := 10%nat); [|exact Hle].
  unfold run_display. reflexivity.
Qed.

Lemma display_logs env w :
  calls (run_display env w) = calls w ++ display_calls.
Proof.
  unfold run_display. cbn. rewrite <- !app_assoc. reflexivity.
Qed.

(** The OpenGL state one invocation leaves, from a state with no primitive
    under construction. *)
Lemma display_gl env w :
  building (gl w) = None ->
  gl (run_display env w)
  = mkGL (clear_color (gl w)) black None
         (vp_width (gl w)) (vp_height (gl w))
         (paint_quad env (vp_width (gl w)) (vp_height (gl w))
            corner_a corner_b corner_c corner_d
            (fun _ _ => clear_color (gl w)))
         (ops (gl w)
          ++ [OpClear (clear_color (gl w));
              OpPrimitive GL_QUADS full_quad;
              OpFlush]).
Proof.
  destruct w as [up wi cur si cb err po g cs].
  destruct g as [cc cu b vw vh buf o]. cbn. intros Hb. subst b.
  unfold run_display. cbn. rewrite <- !app_assoc. reflexivity.
Qed.

(** [display] touches nothing but the OpenGL state and the call log. *)
Lemma display_rest env w :
  glfw_up (run_display env w) = glfw_up w
  /\ win (run_display env w) = win w
  /\ current (run_display env w) = current w
  /\ swap_interval (run_display env w) = swap_interval w
  /\ display_cb (run_display env w) = display_cb w
  /\ stderr (run_display env w) = stderr w
  /\ polls (run_display env w) = polls w.
Proof. unfold run_display. cbn. repeat split. Qed.

(** *** Coverage of the viewport *)

Lemma Qltb_true x y : (x < y)%Q -> Qltb x y = true.
Proof.
  intros H. unfold Qltb. destruct (Qle_bool y x) eqn:E; [|reflexivity].
  apply Qle_bool_iff in E. exfalso. apply (Qlt_not_le _ _ H E).
Qed.

(** Pixel centres lie strictly between the edges of the viewport. *)
Lemma ndc_range n i :
  0 < n -> 0 <= i < n -> (-1 < ndc n i /\ ndc n i < 1)%Q.
Proof.
  intros Hn Hi. unfold ndc.
  assert (Hn' : (0 < inject_Z n)%Q).
  { change 0%Q with (inject_Z 0). rewrite <- Zlt_Qlt. exact Hn. }
  assert (H1 : (0 < inject_Z (2 * i + 1) / inject_Z n)%Q).
  { apply Qlt_shift_div_l; [exact Hn'|].
    rewrite Qmult_0_l. change 0%Q with (inject_Z 0).
    rewrite <- Zlt_Qlt. lia. }
  assert (H2 : (inject_Z (2 * i + 1) / inject_Z n < 2)%Q).
  { apply Qlt_shift_div_r; [exact Hn'|].
    change 2%Q with (inject_Z 2). rewrite <- inject_Z_mult.
    rewrite <- Zlt_Qlt. lia. }
  generalize dependent (inject_Z (2 * i + 1) / inject_Z n)%Q.
  intros q H1 H2. split; lra.
Qed.

Lemma full_quad_covers px py :
  (-1 < px)%Q -> (px < 1)%Q -> (-1 < py)%Q -> (py < 1)%Q ->
  inside_quad corner_a corner_b corner_c corner_d px py = true.
Proof.
  intros H1 H2 H3 H4. unfold inside_quad.
  apply orb_true_iff. left.
  rewrite !andb_true_iff. repeat split;
    apply Qltb_true; unfold edge; cbn [vx vy corner_a corner_b corner_c corner_d];
    lra.
Qed.

Lemma weighted_zero ws cs :
  Forall (fun c => c = 0%Q) cs -> (weighted ws cs == 0)%Q.
Proof.
  revert cs. induction ws as [|w ws IH]; intros cs H.
  - reflexivity.
  - destruct cs as [|c cs]; [reflexivity|].
    inversion H; subst. cbn. rewrite IH by assumption. ring.
Qed.

(** Whatever weights the rasteriser uses, black vertices give black. *)
Lemma mix_black ws vs :
  Forall (fun v => vcol v = black) vs -> mix ws vs = black.
Proof.
  intros H. unfold mix, black.
  assert (Hz : forall f : Color -> Q, f black = 0%Q ->
            Qred (weighted ws (map (fun v => f (vcol v)) vs)) = 0%Q).
  { intros f Hf. change 0%Q with (Qred 0). apply Qred_complete.
    apply weighted_zero. induction H as [|v vs Hv _ IH]; constructor.
    - rewrite Hv. exact Hf.
    - exact IH. }
  rewrite (Hz chan_r), (Hz chan_g), (Hz chan_b); reflexivity.
Qed.

Lemma full_quad_black : Forall (fun v => vcol v = black) full_quad.
Proof. repeat constructor. Qed.

(** After one invocation every pixel of the viewport is black. *)
Lemma display_paints_black env w i j :
  building (gl w) = None ->
  0 <= i < vp_width (gl w) -> 0 <= j < vp_height (gl w) ->
  colorbuf (gl (run_display env w)) i j = black.
Proof.
  intros Hb Hi Hj. rewrite display_gl by exact Hb.
  cbn [colorbuf]. unfold paint_quad.
  destruct (ndc_range (vp_width (gl w)) i) as [Hx1 Hx2]; [lia | exact Hi |].
  destruct (ndc_range (vp_height (gl w)) j) as [Hy1 Hy2]; [lia | exact Hj |].
  rewrite full_quad_covers by assumption.
  apply mix_black. exact full_quad_black.
Qed.

(** *** Counting logged calls *)

Lemma count_app f cs ds : count f (cs ++ ds) = (count f cs + count f ds)%nat.
Proof. unfold count. rewrite filter_app, List.length_app. reflexivity. Qed.

Lemma count_repeat f k cs :
  count f cs = O -> count f (repeat_calls k cs) = O.
Proof.
  intros H. induction k as [|k IH]; [reflexivity|].
  cbn [repeat_calls]. rewrite count_app, H, IH. reflexivity.
Qed.

Lemma init_ok_true env : init_result env <> 0 -> init_ok env = true.
Proof.
  intros H. unfold init_ok, c_not. apply negb_true_iff.
  apply Z.eqb_neq. exact H.
Qed.

Lemma init_ok_false env : init_result env = 0 -> init_ok env = false.
Proof.
  intros H. unfold init_ok, c_not. rewrite H. reflexivity.
Qed.

Lemma create_ok_true env : create_result env <> nullptr -> create_ok env = true.
Proof.
  intros H. unfold create_ok, c_not. apply negb_true_iff.
  apply Z.eqb_neq. exact H.
Qed.

Lemma create_ok_false env : create_result env = nullptr -> create_ok env = false.
Proof.
  intros H. unfold create_ok, c_not. rewrite H. reflexivity.
Qed.

(** *** Worlds reached when the fuel runs out before [main] returns *)

Lemma init_failed_reach env fuel :
  init_ok env = false ->
  In (fst (exec env fuel main world0))
     [world0; w_init env;
      after env (cerr_str "Failed to initialize GLFW") (w_init env);
      w_init_failed env].
Proof.
  intros Hi.
  destruct (Nat.le_gt_cases 4 fuel) as [Hge | Hlt].
  - replace fuel with (4 + (fuel - 4))%nat by lia.
    rewrite main_init_failed by exact Hi. cbn. auto.
  - unfold init_ok in Hi. apply negb_false_iff in Hi.
    destruct fuel as [|[|[|[|n]]]]; [cbn; auto | | | | lia];
      unfold main; rewrite exec_call;
      change (answer env glfwInit world0) with (init_result env);
      rewrite Hi; rewrite ?exec_call; cbn; auto.
Qed.

Lemma create_failed_reach env fuel :
  init_ok env = true -> create_ok env = false ->
  In (fst (exec env fuel main world0))
     [world0; w_init env; w_created env;
      after env glfwTerminate (w_created env);
      after env (cerr_str "Failed to create GLFW window")
        (after env glfwTerminate (w_created env));
      w_create_failed env].
Proof.
  intros Hi Hc.
  destruct (Nat.le_gt_cases 6 fuel) as [Hge | Hlt].
  - replace fuel with (6 + (fuel - 6))%nat by lia.
    rewrite main_create_failed by assumption. cbn. auto 7.
  - pose proof (create_answer env Hi) as Ha.
    unfold init_ok, create_ok in *.
    apply negb_true_iff in Hi. apply negb_false_iff in Hc.
    destruct fuel as [|[|fuel]]; [cbn; auto | | ].
    + unfold main. rewrite exec_call. cbn. auto.
    + unfold main. rewrite exec_call.
      change (answer env glfwInit world0) with (init_result env).
      rewrite Hi. rewrite exec_call.
      fold create_call. fold (w_init env). rewrite Ha, Hc.
      fold (w_created env).
      destruct fuel as [|[|[|[|n]]]]; [ | | | | lia];
        rewrite ?exec_call; cbn; auto 7.
Qed.

Lemma loop_reach env fuel :
  init_ok env = true -> create_ok env = true ->
  In (fst (exec env fuel main world0))
     [world0; w_init env; w_created env;
      after env (glfwMakeContextCurrent (create_result env)) (w_created env);
      after env (glfwSwapInterval 1)
        (after env (glfwMakeContextCurrent (create_result env))
           (w_created env))]
  \/ exists n,
       fuel = (5 + n)%nat /\
       fst (exec env fuel main world0)
       = fst (exec env n (loop_then_shutdown (create_result env))
                (w_ready env)).
Proof.
  intros Hi Hc.
  destruct (Nat.le_gt_cases 5 fuel) as [Hge | Hlt].
  - right. exists (fuel - 5)%nat. split; [lia|].
    assert (E : fuel = (5 + (fuel - 5))%nat) by lia.
    generalize dependent (fuel - 5)%nat. intros n E. subst fuel.
    rewrite main_enters_loop by assumption. reflexivity.
  - left. pose proof (create_answer env Hi) as Ha.
    unfold init_ok, create_ok in *.
    apply negb_true_iff in Hi. apply negb_true_iff in Hc.
    destruct fuel as [|[|fuel]]; [cbn; auto | | ].
    + unfold main. rewrite exec_call. cbn. auto.
    + unfold main. rewrite exec_call.
      change (answer env glfwInit world0) with (init_result env).
      rewrite Hi. rewrite exec_call.
      fold create_call. fold (w_init env). rewrite Ha, Hc.
      fold (w_created env). unfold with_window.
      destruct fuel as [|[|[|n]]]; [ | | | lia];
        rewrite ?exec_call; cbn; auto 7.
Qed.

(** ** Start-up failures *)

(** C1.  If [glfwInit] fails (returns zero), [main] makes exactly three
    calls: the initialisation, then the message "Failed to initialize GLFW"
    and the end of line on standard error; it returns -1; and at no point
    of the run has [glfwCreateWindow] been called. *)
Theorem init_failure_exits env fuel :
  init_result env = 0 -> (4 <= fuel)%nat ->
  exec env fuel main world0 = (w_init_failed env, Some (-1))
  /\ calls (w_init_failed env)
     = [returned glfwInit 0;
        returned (cerr_str "Failed to initialize GLFW") tt;
        returned cerr_endl tt]
  /\ stderr (w_init_failed env) = ("Failed to initialize GLFW" ++ newline)%string
  /\ forall n, count is_create (calls (fst (exec env n main world0))) = O.
Proof.
  intros H0 Hfuel. pose proof (init_ok_false env H0) as Hi.
  split; [|split; [|split]].
  - replace fuel with (4 + (fuel - 4))%nat by lia.
    apply main_init_failed. exact Hi.
  - unfold w_init_failed, w_init. rewrite !calls_after. cbn.
    rewrite H0. reflexivity.
  - reflexivity.
  - intros n. pose proof (init_failed_reach env n Hi) as Hr.
    cbn [In] in Hr.
    destruct Hr as [Hr | [Hr | [Hr | [Hr | []]]]]; rewrite <- Hr;
      unfold w_init_failed, w_init; rewrite ?calls_after; reflexivity.
Qed.

Lemma init_failure_exits_witness :
  init_result env_no_display = 0 /\ (4 <= 4)%nat
  /\ exec env_no_display 4 main world0
     = (w_init_failed env_no_display, Some (-1)).
Proof.
  split; [reflexivity|]. split; [apply le_n|].
  exact (proj1 (init_failure_exits env_no_display 4 eq_refl (le_n 4))).
Defined.

(** C2.  If [glfwInit] succeeds and [glfwCreateWindow] returns no handle,
    [main] calls [glfwTerminate] exactly once, standard error is still
    empty when that call completes, the message "Failed to create GLFW
    window" is written afterwards, and [main] returns -1. *)
Theorem create_failure_tears_down env fuel :
  init_result env <> 0 -> create_result env = nullptr -> (6 <= fuel)%nat ->
  exec env fuel main world0 = (w_create_failed env, Some (-1))
  /\ calls (w_create_failed env)
     = [returned glfwInit (init_result env);
        returned create_call nullptr;
        returned glfwTerminate tt;
        returned (cerr_str "Failed to create GLFW window") tt;
        returned cerr_endl tt]
  /\ count is_terminate (calls (w_create_failed env)) = 1%nat
  /\ stderr (after env glfwTerminate (w_created env)) = EmptyString
  /\ glfw_up (after env glfwTerminate (w_created env)) = false
  /\ stderr (w_create_failed env)
     = ("Failed to create GLFW window" ++ newline)%string.
Proof.
  intros H0 H1 Hfuel.
  pose proof (init_ok_true env H0) as Hi.
  pose proof (create_ok_false env H1) as Hc.
  assert (Hcalls : calls (w_create_failed env)
     = [returned glfwInit (init_result env);
        returned create_call nullptr;
        returned glfwTerminate tt;
        returned (cerr_str "Failed to create GLFW window") tt;
        returned cerr_endl tt]).
  { unfold w_create_failed, w_created. rewrite !calls_after.
    rewrite (create_answer env Hi), H1. reflexivity. }
  assert (Herr : stderr (w_created env) = EmptyString).
  { unfold w_created, after, perform. cbn.
    destruct (_ && _); reflexivity. }
  split; [|split; [|split; [|split; [|split]]]].
  - replace fuel with (6 + (fuel - 6))%nat by lia.
    apply main_create_failed; assumption.
  - exact Hcalls.
  - rewrite Hcalls. reflexivity.
  - exact Herr.
  - reflexivity.
  - unfold w_create_failed. cbn. rewrite Herr. reflexivity.
Qed.

Lemma create_failure_tears_down_witness :
  init_result env_no_window <> 0 /\ create_result env_no_window = nullptr
  /\ (6 <= 6)%nat
  /\ exec env_no_window 6 main world0
     = (w_create_failed env_no_window, Some (-1)).
Proof.
  assert (H : init_result env_no_window <> 0) by discriminate.
  split; [exact H|]. split; [reflexivity|]. split; [apply le_n|].
  exact (proj1 (create_failure_tears_down env_no_window 6 H eq_refl (le_n 6))).
Defined.

(** *** The world in which the loop is entered *)

Lemma calls_ready env :
  init_ok env = true ->
  calls (w_ready env)
  = [returned glfwInit (init_result env);
     returned create_call (create_result env);
     returned (glfwMakeContextCurrent (create_result env)) tt;
     returned (glfwSwapInterval 1) tt;
     returned (glutDisplayFunc Fn_display) tt].
Proof.
  intros Hi. unfold w_ready, w_created. rewrite !calls_after.
  rewrite (create_answer env Hi). reflexivity.
Qed.

Lemma win_ready env :
  init_ok env = true -> create_ok env = true ->
  win (w_ready env)
  = Some (mkWindow (create_result env) 800 600 "Chess Renderer" false)
  /\ polls (w_ready env) = O
  /\ glfw_up (w_ready env) = true
  /\ display_cb (w_ready env) = Some Fn_display.
Proof.
  unfold init_ok, create_ok. intros Hi Hc.
  unfold w_ready, w_created, w_init, after, perform. cbn.
  rewrite Hi, Hc. cbn. repeat split.
Qed.

Lemma any_request_inv env k :
  forall from,
    any_request env from k = true ->
    exists j, (j < k)%nat /\ close_request env (from + j) = true.
Proof.
  induction k as [|k IH]; intros from H; [discriminate H|].
  cbn in H. apply orb_true_iff in H. destruct H as [H | H].
  - exists O. split; [lia|]. rewrite Nat.add_0_r. exact H.
  - apply IH in H. destruct H as (j & Hj & Hr).
    exists (S j). split; [lia|]. rewrite <- Hr. f_equal. lia.
Qed.

Lemma flag_ready env k :
  init_ok env = true -> create_ok env = true ->
  flag_of (create_result env) (turns env (create_result env) k (w_ready env))
  = any_request env O k.
Proof.
  intros Hi Hc. destruct (win_ready env Hi Hc) as (Hw & Hp & _).
  rewrite (flag_turns env (create_result env) k _ _ Hw eq_refl).
  rewrite Hp. reflexivity.
Qed.

(** Once a close request is delivered, [main] returns 0. *)
Lemma main_closes env k :
  init_ok env = true -> create_ok env = true ->
  close_request env k = true ->
  exists n, (n <= S k)%nat /\
    forall fuel, (4 * n + 9 <= fuel)%nat ->
      exec env fuel main world0
      = (close_exit env (create_result env)
           (turns env (create_result env) n (w_ready env)), Some 0).
Proof.
  intros Hi Hc Hk.
  assert (Hf : flag_of (create_result env)
                 (turns env (create_result env) (S k) (w_ready env)) = true).
  { rewrite flag_ready by assumption.
    apply (any_request_at env (S k) O k); [lia | exact Hk]. }
  apply first_closed in Hf. destruct Hf as (n & Hn & Hopen & Hflag).
  exists n. split; [exact Hn|]. intros fuel Hfuel.
  replace fuel with (5 + (4 * n + (4 + (fuel - 4 * n - 9))))%nat by lia.
  rewrite main_enters_loop by assumption.
  rewrite turns_exec by exact Hopen.
  apply turn_closed_exec. exact Hflag.
Qed.

(** ** Exit status *)

(** C3.  Whenever [main] returns, it returns 0 after a close request ended
    the loop, or -1 after [glfwInit] failed, or -1 after
    [glfwCreateWindow] failed; and in each of these three situations
    [main] does return. *)
Theorem exit_status env :
  (forall fuel w' r,
      exec env fuel main world0 = (w', Some r) ->
      (r = 0 /\ init_result env <> 0 /\ create_result env <> nullptr
       /\ exists k, close_request env k = true)
      \/ (r = -1 /\ init_result env = 0)
      \/ (r = -1 /\ init_result env <> 0 /\ create_result env = nullptr))
  /\ (init_result env = 0 ->
      exists fuel w', exec env fuel main world0 = (w', Some (-1)))
  /\ (init_result env <> 0 -> create_result env = nullptr ->
      exists fuel w', exec env fuel main world0 = (w', Some (-1)))
  /\ (init_result env <> 0 -> create_result env <> nullptr ->
      forall k, close_request env k = true ->
      exists fuel w', exec env fuel main world0 = (w', Some 0)).
Proof.
  assert (Hinit : forall b, init_ok env = b ->
            if b then init_result env <> 0 else init_result env = 0).
  { intros b Hb. unfold init_ok, c_not in Hb. destruct b.
    - apply negb_true_iff in Hb. apply Z.eqb_neq. exact Hb.
    - apply negb_false_iff in Hb. apply Z.eqb_eq. exact Hb. }
  assert (Hcreate : forall b, create_ok env = b ->
            if b then create_result env <> nullptr
            else create_result env = nullptr).
  { intros b Hb. unfold create_ok, c_not in Hb. destruct b.
    - apply negb_true_iff in Hb. apply Z.eqb_neq. exact Hb.
    - apply negb_false_iff in Hb. apply Z.eqb_eq. exact Hb. }
  split; [|split; [|split]].
  - intros fuel w' r H. apply main_returns in H.
    destruct H as [(Hi & Hr & _) | [(Hi & Hc & Hr & _) | (Hi & Hc & Hr & Hk)]].
    + right; left. split; [exact Hr|]. exact (Hinit false Hi).
    + right; right. split; [exact Hr|].
      split; [exact (Hinit true Hi) | exact (Hcreate false Hc)].
    + left. split; [exact Hr|].
      split; [exact (Hinit true Hi)|]. split; [exact (Hcreate true Hc)|].
      destruct Hk as (k & _ & Hflag & _).
      rewrite flag_ready in Hflag by assumption.
      apply any_request_inv in Hflag. destruct Hflag as (j & _ & Hj).
      exists j. exact Hj.
  - intros H0. exists 4%nat, (w_init_failed env).
    apply (main_init_failed env O). apply init_ok_false. exact H0.
  - intros H0 H1. exists 6%nat, (w_create_failed env).
    apply (main_create_failed env O);
      [apply init_ok_true | apply create_ok_false]; assumption.
  - intros H0 H1 k Hk.
    destruct (main_closes env k (init_ok_true env H0) (create_ok_true env H1) Hk)
      as (n & _ & Hrun).
    exists (4 * n + 9)%nat. eexists. apply Hrun. lia.
Qed.

Lemma exit_status_witness :
  exec env_closing 21 main world0
  = (fst (exec env_closing 21 main world0), Some 0)
  /\ ((0 = 0 /\ init_result env_closing <> 0
       /\ create_result env_closing <> nullptr
       /\ exists k, close_request env_closing k = true)
      \/ (0 = -1 /\ init_result env_closing = 0)
      \/ (0 = -1 /\ init_result env_closing <> 0
          /\ create_result env_closing = nullptr)).
Proof.
  assert (H : exec env_closing 21 main world0
              = (fst (exec env_closing 21 main world0), Some 0))
    by (vm_compute; reflexivity).
  split; [exact H|].
  exact (proj1 (exit_status env_closing) 21%nat _ 0 H).
Defined.

(** ** Resources *)

(** C9.  In the call log of every run of [main] that returns, successful
    [glfwInit] calls and [glfwTerminate] calls are equal in number (at most
    one), and so are successful [glfwCreateWindow] calls and
    [glfwDestroyWindow] calls; on return the subsystem is down and no
    window is live. *)
Theorem resource_symmetry env fuel w' r :
  exec env fuel main world0 = (w', Some r) ->
  count init_succeeded (calls w') = count is_terminate (calls w')
  /\ count create_succeeded (calls w') = count is_destroy (calls w')
  /\ (count init_succeeded (calls w') <= 1)%nat
  /\ (count create_succeeded (calls w') <= 1)%nat
  /\ glfw_up w' = false
  /\ win w' = None.
Proof.
  intros H. apply main_returns in H.
  destruct H as [(Hi & _ & Hw) | [(Hi & Hc & _ & Hw) | (Hi & Hc & _ & Hk)]].
  - subst w'.
    assert (Hcalls : calls (w_init_failed env)
              = [returned glfwInit (init_result env);
                 returned (cerr_str "Failed to initialize GLFW") tt;
                 returned cerr_endl tt]).
    { unfold w_init_failed, w_init. rewrite !calls_after. reflexivity. }
    rewrite Hcalls. unfold count. cbn. fold (init_ok env). rewrite Hi. cbn.
    repeat split; auto.
  - subst w'.
    assert (Hcalls : calls (w_create_failed env)
              = [returned glfwInit (init_result env);
                 returned create_call (create_result env);
                 returned glfwTerminate tt;
                 returned (cerr_str "Failed to create GLFW window") tt;
                 returned cerr_endl tt]).
    { unfold w_create_failed, w_created. rewrite !calls_after.
      rewrite (create_answer env Hi). reflexivity. }
    rewrite Hcalls. unfold count. cbn.
    fold (init_ok env). fold (create_ok env). rewrite Hi, Hc. cbn.
    repeat split; auto.
  - destruct Hk as (k & Hopen & Hflag & Hw). subst w'.
    rewrite calls_close_exit by exact Hflag.
    rewrite calls_turns by exact Hopen.
    rewrite calls_ready by exact Hi.
    rewrite !count_app.
    rewrite !(count_repeat _ k (turn_calls _)) by reflexivity.
    unfold count. cbn.
    fold (init_ok env). fold (create_ok env). rewrite Hi, Hc. cbn.
    repeat split; auto.
Qed.

Lemma resource_symmetry_witness :
  exec env_closing 21 main world0
  = (fst (exec env_closing 21 main world0), Some 0)
  /\ count init_succeeded (calls (fst (exec env_closing 21 main world0)))
     = count is_terminate (calls (fst (exec env_closing 21 main world0))).
Proof.
  assert (H : exec env_closing 21 main world0
              = (fst (exec env_closing 21 main world0), Some 0))
    by (vm_compute; reflexivity).
  split; [exact H|].
  exact (proj1 (resource_symmetry env_closing 21 _ 0 H)).
Defined.

(** ** The draw routine *)

(** C5.  One invocation of [display], from a state with no primitive under
    construction, returns after making nine calls in the order of the
    source, and what the pipeline carries out is: one clear of the colour
    buffer, then one [GL_QUADS] primitive with the vertices (-1,-1),
    (1,-1), (1,1), (-1,1), each black, then one flush. *)
Theorem display_sequence env w fuel :
  building (gl w) = None -> (10 <= fuel)%nat ->
  exec env fuel display w = (run_display env w, Some tt)
  /\ calls (run_display env w)
     = calls w
       ++ [returned (glClear GL_COLOR_BUFFER_BIT) tt;
           returned (glBegin GL_QUADS) tt;
           returned (glColor3f 0 0 0) tt;
           returned (glVertex2f (-1) (-1)) tt;
           returned (glVertex2f 1 (-1)) tt;
           returned (glVertex2f 1 1) tt;
           returned (glVertex2f (-1) 1) tt;
           returned glEnd tt;
           returned glFlush tt]%Q
  /\ ops (gl (run_display env w))
     = ops (gl w)
       ++ [OpClear (clear_color (gl w));
           OpPrimitive GL_QUADS
             [mkVertex (-1) (-1) (0, 0, 0); mkVertex 1 (-1) (0, 0, 0);
              mkVertex 1 1 (0, 0, 0); mkVertex (-1) 1 (0, 0, 0)]%Q;
           OpFlush].
Proof.
  intros Hb Hfuel. split; [|split].
  - apply display_returns. exact Hfuel.
  - apply display_logs.
  - rewrite display_gl by exact Hb. reflexivity.
Qed.

Lemma display_sequence_witness :
  building (gl world0) = None /\ (10 <= 10)%nat
  /\ exec env_closing 10 display world0
     = (run_display env_closing world0, Some tt).
Proof.
  split; [reflexivity|]. split; [apply le_n|].
  exact (proj1 (display_sequence env_closing world0 10 eq_refl (le_n 10))).
Defined.

Lemma display_again env w :
  building (gl w) = None ->
  same_image (gl (run_display env (run_display env w)))
             (gl (run_display env w))
  /\ building (gl (run_display env w)) = None.
Proof.
  intros Hb.
  assert (Hb1 : building (gl (run_display env w)) = None).
  { rewrite display_gl by exact Hb. reflexivity. }
  split; [|exact Hb1].
  rewrite (display_gl env (run_display env w)) by exact Hb1.
  rewrite display_gl by exact Hb. repeat split.
Qed.

Lemma display_times_image env n :
  forall w,
    building (gl w) = None ->
    same_image (gl (run_display_times env (S n) w)) (gl (run_display env w))
    /\ building (gl (run_display_times env (S n) w)) = None.
Proof.
  induction n as [|n IH]; intros w Hb.
  - cbn [run_display_times]. split; [repeat split|].
    rewrite display_gl by exact Hb. reflexivity.
  - destruct (display_again env w Hb) as [Hsame Hb1].
    destruct (IH (run_display env w) Hb1) as [Hn Hbn].
    change (run_display_times env (S (S n)) w)
      with (run_display_times env (S n) (run_display env w)).
    split; [|exact Hbn].
    unfold same_image in *.
    repeat match goal with H : _ /\ _ |- _ => destruct H end.
    repeat split; congruence.
Qed.

Lemma display_times_calls env n :
  forall w,
    calls (run_display_times env n w)
    = calls w ++ repeat_calls n display_calls.
Proof.
  induction n as [|n IH]; intros w.
  - cbn. rewrite app_nil_r. reflexivity.
  - cbn [run_display_times repeat_calls]. rewrite IH, display_logs.
    rewrite <- app_assoc. reflexivity.
Qed.

(** C4.  However many times [display] is invoked in a row (at least once),
    every invocation returns and makes the same calls, every pixel of the
    viewport ends up black, and the drawing state is the one a single
    invocation leaves: nothing builds up from one invocation to the next. *)
Theorem display_idempotent env w n i j :
  building (gl w) = None ->
  0 <= i < vp_width (gl w) -> 0 <= j < vp_height (gl w) ->
  colorbuf (gl (run_display_times env (S n) w)) i j = black
  /\ same_image (gl (run_display_times env (S n) w)) (gl (run_display env w))
  /\ calls (run_display_times env (S n) w)
     = calls w ++ repeat_calls (S n) display_calls
  /\ (forall w' fuel, (10 <= fuel)%nat ->
        exec env fuel display w' = (run_display env w', Some tt)).
Proof.
  intros Hb Hi Hj.
  destruct (display_times_image env n w Hb) as [Hsame _].
  split; [|split; [exact Hsame | split]].
  - destruct Hsame as (_ & _ & _ & _ & _ & Hbuf). rewrite Hbuf.
    apply display_paints_black; assumption.
  - apply display_times_calls.
  - intros w' fuel Hfuel. apply display_returns. exact Hfuel.
Qed.

Lemma display_idempotent_witness :
  building (gl world_white) = None
  /\ 0 <= 799 < vp_width (gl world_white)
  /\ 0 <= 0 < vp_height (gl world_white)
  /\ colorbuf (gl (run_display_times env_closing 3 world_white)) 799 0 = black.
Proof.
  assert (Hi : 0 <= 799 < vp_width (gl world_white)) by (cbn; lia).
  assert (Hj : 0 <= 0 < vp_height (gl world_white)) by (cbn; lia).
  split; [reflexivity|]. split; [exact Hi|]. split; [exact Hj|].
  exact (proj1 (display_idempotent env_closing world_white 2 799 0
                  eq_refl Hi Hj)).
Defined.

(** ** The run loop *)

(** [in_body] is where a turn stands once its check has found the flag
    unset, and [leave_body] brings it back to the head of the loop. *)
Lemma enter_body env p w n :
  flag_of p w = false ->
  exec env (S n) (loop_then_shutdown p) w
  = exec env n (in_body p) (after env (glfwWindowShouldClose p) w).
Proof.
  intros Hf. unfold after. cbn. rewrite Hf. cbn. destruct n; reflexivity.
Qed.

Lemma leave_body env p w n :
  exec env (3 + n) (in_body p) w
  = exec env n (loop_then_shutdown p)
      (after env glfwPollEvents (after env (glfwSwapBuffers p) w)).
Proof. unfold after. cbn. reflexivity. Qed.

(** Neither swapping buffers nor processing events clears the flag. *)
Lemma flag_kept env p w :
  flag_of p w = true ->
  flag_of p (after env glfwPollEvents (after env (glfwSwapBuffers p) w)) = true.
Proof.
  unfold flag_of. cbn. destruct (win w) as [x|]; [|discriminate].
  cbn. intros H. apply andb_true_iff in H. destruct H as [H1 H2].
  rewrite H1, H2. reflexivity.
Qed.

(** C6.  With the close flag set, the loop is over at its next condition
    check.  At the loop head it is left at once, without swapping or
    polling again; inside the body the current turn is finished (one swap,
    one poll) and the loop is left at the check that follows.  Either way
    what follows the check is one [glfwDestroyWindow], one [glfwTerminate]
    and the return of 0, leaving no window and the subsystem down. *)
Theorem close_flag_ends_loop env p w :
  flag_of p w = true ->
  (forall fuel, (4 <= fuel)%nat ->
     exec env fuel (loop_then_shutdown p) w = (close_exit env p w, Some 0))
  /\ calls (close_exit env p w)
     = calls w
       ++ [returned (glfwWindowShouldClose p) GLFW_TRUE;
           returned (glfwDestroyWindow p) tt;
           returned glfwTerminate tt]
  /\ (forall fuel, (7 <= fuel)%nat ->
        exec env fuel (in_body p) w
        = (close_exit env p
             (after env glfwPollEvents (after env (glfwSwapBuffers p) w)),
           Some 0))
  /\ calls (close_exit env p
              (after env glfwPollEvents (after env (glfwSwapBuffers p) w)))
     = calls w
       ++ [returned (glfwSwapBuffers p) tt;
           returned glfwPollEvents tt;
           returned (glfwWindowShouldClose p) GLFW_TRUE;
           returned (glfwDestroyWindow p) tt;
           returned glfwTerminate tt]
  /\ win (close_exit env p w) = None
  /\ glfw_up (close_exit env p w) = false.
Proof.
  intros Hf. pose proof (flag_kept env p w Hf) as Hf'.
  split; [|split; [|split; [|split; [|split]]]].
  - intros fuel Hfuel. replace fuel with (4 + (fuel - 4))%nat by lia.
    apply turn_closed_exec. exact Hf.
  - apply calls_close_exit. exact Hf.
  - intros fuel Hfuel. replace fuel with (3 + (4 + (fuel - 7)))%nat by lia.
    rewrite leave_body. apply turn_closed_exec. exact Hf'.
  - rewrite calls_close_exit by exact Hf'. rewrite !calls_after.
    rewrite <- !app_assoc. reflexivity.
  - reflexivity.
  - reflexivity.
Qed.

Lemma close_flag_ends_loop_witness :
  flag_of 77 world_closing = true
  /\ exec env_closing 4 (loop_then_shutdown 77) world_closing
     = (close_exit env_closing 77 world_closing, Some 0).
Proof.
  split; [reflexivity|].
  exact (proj1 (close_flag_ends_loop env_closing 77 world_closing eq_refl)
           4%nat (le_n 4)).
Defined.

Lemma polls_turns env p k :
  forall w, polls (turns env p k w) = (polls w + k)%nat.
Proof.
  induction k as [|k IH]; intros w.
  - cbn. lia.
  - cbn [turns]. rewrite IH. cbn. lia.
Qed.

(** C7.  Each turn of the loop that finds the close flag unset makes, after
    the check, exactly the calls [glfwSwapBuffers] and [glfwPollEvents], in
    that order, and then stands at the head of the very same loop: [k] such
    turns cost [4 * k] steps, log the same three calls [k] times, and
    change nothing in the world but the close flag and the count of polls. *)
Theorem loop_turn env p w k n :
  open_until env p k w ->
  exec env (4 * k + n) (loop_then_shutdown p) w
  = exec env n (loop_then_shutdown p) (turns env p k w)
  /\ calls (turns env p k w)
     = calls w
       ++ repeat_calls k
            [returned (glfwWindowShouldClose p) GLFW_FALSE;
             returned (glfwSwapBuffers p) tt;
             returned glfwPollEvents tt]
  /\ same_but_flag w (turns env p k w)
  /\ polls (turns env p k w) = (polls w + k)%nat.
Proof.
  intros Hopen. split; [|split; [|split]].
  - apply turns_exec. exact Hopen.
  - apply calls_turns. exact Hopen.
  - apply turns_same.
  - apply polls_turns.
Qed.

Lemma loop_turn_witness :
  open_until env_closing 77 2 (w_ready env_closing)
  /\ calls (turns env_closing 77 2 (w_ready env_closing))
     = calls (w_ready env_closing)
       ++ repeat_calls 2
            [returned (glfwWindowShouldClose 77) GLFW_FALSE;
             returned (glfwSwapBuffers 77) tt;
             returned glfwPollEvents tt].
Proof.
  assert (H : open_until env_closing 77 2 (w_ready env_closing)).
  { intros j Hj. destruct j as [|[|j]]; [reflexivity | reflexivity | lia]. }
  split; [exact H|].
  exact (proj1 (proj2 (loop_turn env_closing 77 (w_ready env_closing) 2 0 H))).
Defined.

(** ** Invariants of every run of [main] *)

Lemma after_unfold env X (e : callE X) w :
  after env e w
  = record_call (returned e (answer env e w)) (fst (handle env e w)).
Proof.
  unfold after, answer, perform. destruct (handle env e w); reflexivity.
Qed.

Lemma attributes_step env X (e : callE X) w :
  main_call X e -> attributes_fixed w -> attributes_fixed (after env e w).
Proof.
  unfold attributes_fixed. rewrite after_unfold.
  intros He H. destruct He; cbn; try exact H; try exact I.
  - destruct (glfw_up w && negb (c_not (create_result env))); cbn.
    + repeat split.
    + exact H.
  - destruct (win w) as [x|]; exact H.
  - destruct (win w) as [x|] eqn:Hw; [|rewrite Hw; exact I].
    destruct (w_handle x =? p); cbn; [exact I | rewrite Hw; exact H].
Qed.

Lemma log_step env (Q : Call -> Prop) X (e : callE X) w :
  Q (returned e (answer env e w)) ->
  Forall Q (calls w) -> Forall Q (calls (after env e w)).
Proof.
  intros He H. rewrite calls_after. apply Forall_app. split; [exact H|].
  constructor; [exact He | constructor].
Qed.

Lemma count_step env f X (e : callE X) w :
  f (returned e (answer env e w)) = false ->
  count f (calls (after env e w)) = count f (calls w).
Proof.
  intros He. rewrite calls_after, count_app. unfold count at 2. cbn.
  rewrite He. cbn. lia.
Qed.

(** The loop and the shutdown after it leave the number of logged calls of
    a kind they do not make as it was. *)
Lemma loop_keeps_count env p f fuel w :
  (forall X (e : callE X) x, loop_call p X e -> f (returned e x) = false) ->
  count f (calls (fst (exec env fuel (loop_then_shutdown p) w)))
  = count f (calls w).
Proof.
  intros Hf.
  apply (exec_invariant env (loop_call p)
           (fun w' => count f (calls w') = count f (calls w))).
  - intros X e w' He H. rewrite count_step; [exact H|]. apply Hf. exact He.
  - apply loop_issues_strict.
  - reflexivity.
Qed.

(** C8.  In every world a run of [main] reaches, a live window has width
    800, height 600 and title "Chess Renderer"; the log holds at most one
    call that passes a size or a title, and any such call passes exactly
    these: they are given at creation and no later call touches them. *)
Theorem window_attributes_fixed env fuel :
  attributes_fixed (fst (exec env fuel main world0))
  /\ (count is_create (calls (fst (exec env fuel main world0))) <= 1)%nat
  /\ forallb create_args_ok (calls (fst (exec env fuel main world0))) = true.
Proof.
  split; [|split].
  - apply main_invariant; [exact I|]. intros X e w He H.
    apply attributes_step; assumption.
  - destruct (init_ok env) eqn:Hi; [destruct (create_ok env) eqn:Hc|].
    + destruct (loop_reach env fuel Hi Hc) as [Hr | (n & _ & Hr)].
      * cbn [In] in Hr.
        destruct Hr as [Hr | [Hr | [Hr | [Hr | [Hr | []]]]]]; rewrite <- Hr;
          unfold w_created, w_init; rewrite ?calls_after; cbn; lia.
      * rewrite Hr. rewrite loop_keeps_count.
        -- rewrite calls_ready by exact Hi. cbn. lia.
        -- intros X e x He. destruct He; reflexivity.
    + pose proof (create_failed_reach env fuel Hi Hc) as Hr. cbn [In] in Hr.
      destruct Hr as [Hr | [Hr | [Hr | [Hr | [Hr | [Hr | []]]]]]];
        rewrite <- Hr; unfold w_create_failed, w_created, w_init;
        rewrite ?calls_after; cbn; lia.
    + pose proof (init_failed_reach env fuel Hi) as Hr. cbn [In] in Hr.
      destruct Hr as [Hr | [Hr | [Hr | [Hr | []]]]];
        rewrite <- Hr; unfold w_init_failed, w_init;
        rewrite ?calls_after; cbn; lia.
  - apply forallb_forall. apply Forall_forall.
    apply (main_invariant env
             (fun w => Forall (fun c => create_args_ok c = true) (calls w))).
    + constructor.
    + intros X e w He H. apply log_step; [|exact H].
      destruct He; reflexivity.
Qed.

(** ** The draw callback *)

(** C10.  In every world a run of [main] reaches, the log holds only calls
    of the kinds [main] makes itself, none of them an OpenGL call, whereas
    every call of [display] is one; the OpenGL state is the initial one and
    nothing has been drawn.  This is so although, from the moment the loop
    is entered, [display] is the registered draw callback. *)
Theorem display_never_runs env fuel :
  Forall logged_main_call (calls (fst (exec env fuel main world0)))
  /\ count is_gl (calls (fst (exec env fuel main world0))) = O
  /\ forallb is_gl display_calls = true
  /\ gl (fst (exec env fuel main world0)) = gl0
  /\ ops (gl (fst (exec env fuel main world0))) = []
  /\ (init_result env <> 0 -> create_result env <> nullptr ->
      (5 <= fuel)%nat ->
      display_cb (fst (exec env fuel main world0)) = Some Fn_display).
Proof.
  assert (Hgl : gl (fst (exec env fuel main world0)) = gl0).
  { apply (main_invariant env (fun w => gl w = gl0)); [reflexivity|].
    intros X e w He H. rewrite <- H. rewrite after_unfold.
    destruct He; cbn; try reflexivity.
    - destruct (glfw_up w && negb (c_not (create_result env))); reflexivity.
    - destruct (win w) as [x|]; [|reflexivity].
      destruct (w_handle x =? p); reflexivity. }
  split; [|split; [|split; [|split; [|split]]]].
  - apply (main_invariant env (fun w => Forall logged_main_call (calls w))).
    + constructor.
    + intros X e w He H. apply log_step; [exact He | exact H].
  - apply (main_invariant env (fun w => count is_gl (calls w) = O)).
    + reflexivity.
    + intros X e w He H. rewrite count_step; [exact H|].
      destruct He; reflexivity.
  - reflexivity.
  - exact Hgl.
  - rewrite Hgl. reflexivity.
  - intros H0 H1 Hfuel.
    pose proof (init_ok_true env H0) as Hi.
    pose proof (create_ok_true env H1) as Hc.
    replace fuel with (5 + (fuel - 5))%nat by lia.
    rewrite main_enters_loop by assumption.
    apply (exec_invariant env (loop_call (create_result env))
             (fun w => display_cb w = Some Fn_display)).
    + intros X e w He H. rewrite <- H. rewrite after_unfold.
      destruct He; cbn; try reflexivity.
      destruct (win w) as [x|]; [|reflexivity].
      destruct (w_handle x =? create_result env); reflexivity.
    + apply loop_issues_strict.
    + apply (win_ready env Hi Hc).
Qed.

Lemma display_never_runs_witness :
  init_result env_closing <> 0 /\ create_result env_closing <> nullptr
  /\ (5 <= 12)%nat
  /\ display_cb (fst (exec env_closing 12 main world0)) = Some Fn_display
  /\ count is_gl (calls (fst (exec env_closing 12 main world0))) = O.
Proof.
  assert (H0 : init_result env_closing <> 0) by discriminate.
  assert (H1 : create_result env_closing <> nullptr) by discriminate.
  assert (H2 : (5 <= 12)%nat) by (repeat constructor).
  split; [exact H0|]. split; [exact H1|]. split; [exact H2|].
  pose proof (display_never_runs env_closing 12) as H.
  split.
  - exact (proj2 (proj2 (proj2 (proj2 (proj2 H)))) H0 H1 H2).
  - exact (proj1 (proj2 H)).
Defined.

(** * Further properties of [main] *)

(** ** Every world the loop can be in *)

(** However long the loop and shutdown have run, they have made some number
    [k] of full turns with the flag unset and then stand at the loop head,
    or just after the check, or (flag unset) after the swap, or (flag set)
    after the destruction of the window or after the termination. *)
Lemma loop_worlds env p fuel :
  forall w,
  exists k,
    open_until env p k w /\
    (fst (exec env fuel (loop_then_shutdown p) w) = turns env p k w
     \/ fst (exec env fuel (loop_then_shutdown p) w)
        = after env (glfwWindowShouldClose p) (turns env p k w)
     \/ (flag_of p (turns env p k w) = false
         /\ fst (exec env fuel (loop_then_shutdown p) w)
            = after env (glfwSwapBuffers p)
                (after env (glfwWindowShouldClose p) (turns env p k w)))
     \/ (flag_of p (turns env p k w) = true
         /\ fst (exec env fuel (loop_then_shutdown p) w)
            = after env (glfwDestroyWindow p)
                (after env (glfwWindowShouldClose p) (turns env p k w)))
     \/ (flag_of p (turns env p k w) = true
         /\ fst (exec env fuel (loop_then_shutdown p) w)
            = close_exit env p (turns env p k w))).
Proof.
  induction fuel as [fuel IH] using lt_wf_ind. intros w.
  assert (H0 : open_until env p 0 w) by (intros j Hj; lia).
  destruct fuel as [|fuel]; [exists O; split; [exact H0 | left; reflexivity]|].
  destruct fuel as [|fuel].
  { exists O. split; [exact H0|]. right; left.
    unfold after. cbn. destruct (flag_of p w); reflexivity. }
  destruct (flag_of p w) eqn:Hf.
  - exists O. split; [exact H0|]. cbn [turns].
    destruct fuel as [|[|n]].
    + right; right; right; left. split; [exact Hf|].
      unfold after. cbn. rewrite Hf. reflexivity.
    + right; right; right; right. split; [exact Hf|].
      unfold close_exit, after. cbn. rewrite Hf. reflexivity.
    + right; right; right; right. split; [exact Hf|].
      change (S (S (S (S n)))) with (4 + n)%nat.
      rewrite turn_closed_exec by exact Hf. reflexivity.
  - destruct fuel as [|[|n]].
    + exists O. split; [exact H0|]. cbn [turns].
      right; right; left. split; [exact Hf|].
      unfold after. cbn. rewrite Hf. reflexivity.
    + exists 1%nat. split.
      * apply open_until_S; [exact Hf | intros j Hj; lia].
      * left. unfold open_turn, after. cbn. rewrite Hf. reflexivity.
    + change (S (S (S (S n)))) with (4 + n)%nat.
      rewrite turn_open_exec by exact Hf.
      destruct (IH n ltac:(lia) (open_turn env p w)) as (k & Hk & Hcases).
      exists (S k). split; [apply open_until_S; assumption|].
      cbn [turns]. exact Hcases.
Qed.

(** ** The shape of every log *)

Lemma answer_check env p w :
  answer env (glfwWindowShouldClose p) w
  = if flag_of p w then GLFW_TRUE else GLFW_FALSE.
Proof. reflexivity. Qed.

Lemma calls_init env :
  calls (w_init env) = [returned glfwInit (init_result env)].
Proof. unfold w_init. rewrite calls_after. reflexivity. Qed.

Lemma calls_created env :
  init_ok env = true ->
  calls (w_created env)
  = [returned glfwInit (init_result env);
     returned create_call (create_result env)].
Proof.
  intros Hi. unfold w_created.
  rewrite calls_after, (create_answer env Hi), calls_init. reflexivity.
Qed.

(** With both start-up steps successful, the log of any world [main]
    reaches is a prefix of the set-up calls, or the set-up calls and some
    full turns followed by a prefix of one more turn or by a non-empty
    prefix of the exit calls. *)
Lemma main_logs env fuel :
  init_ok env = true -> create_ok env = true ->
  (exists m, calls (fst (exec env fuel main world0))
             = firstn m (setup_calls env))
  \/ (exists k j,
        calls (fst (exec env fuel main world0))
        = setup_calls env
          ++ repeat_calls k (turn_calls (create_result env))
          ++ firstn j (turn_calls (create_result env)))
  \/ (exists k j,
        calls (fst (exec env fuel main world0))
        = setup_calls env
          ++ repeat_calls k (turn_calls (create_result env))
          ++ firstn (S j) (exit_calls (create_result env))).
Proof.
  intros Hi Hc. pose proof (calls_created env Hi) as Ha.
  destruct (loop_reach env fuel Hi Hc) as [Hr | (n & _ & Hr)].
  - left. cbn [In] in Hr.
    destruct Hr as [Hr | [Hr | [Hr | [Hr | [Hr | []]]]]]; rewrite <- Hr.
    + exists 0%nat. reflexivity.
    + exists 1%nat. rewrite calls_init. reflexivity.
    + exists 2%nat. rewrite ?calls_after, Ha. reflexivity.
    + exists 3%nat. rewrite ?calls_after, Ha. reflexivity.
    + exists 4%nat. rewrite ?calls_after, Ha. reflexivity.
  - right. rewrite Hr.
    destruct (loop_worlds env (create_result env) n (w_ready env))
      as (k & Hopen & Hcases).
    pose proof (calls_turns env _ k _ Hopen) as Hk.
    rewrite (calls_ready env Hi) in Hk. fold (setup_calls env) in Hk.
    destruct Hcases as [H | [H | [[Hf H] | [[Hf H] | [Hf H]]]]]; rewrite H.
    + left. exists k, 0%nat. rewrite Hk. cbn [firstn].
      rewrite app_nil_r. reflexivity.
    + rewrite calls_after, answer_check, Hk.
      destruct (flag_of _ _).
      * right. exists k, 0%nat. rewrite <- app_assoc. reflexivity.
      * left. exists k, 1%nat. rewrite <- app_assoc. reflexivity.
    + left. exists k, 2%nat.
      rewrite !calls_after, answer_check, Hf, Hk.
      rewrite <- !app_assoc. reflexivity.
    + right. exists k, 1%nat.
      rewrite !calls_after, answer_check, Hf, Hk.
      rewrite <- !app_assoc. reflexivity.
    + right. exists k, 2%nat.
      rewrite calls_close_exit by exact Hf. rewrite Hk.
      rewrite <- !app_assoc. reflexivity.
Qed.

(** The logs of the worlds reached when a start-up step fails. *)
Lemma init_failed_logs env fuel :
  init_ok env = false ->
  exists m,
    calls (fst (exec env fuel main world0))
    = firstn m [returned glfwInit (init_result env);
                returned (cerr_str "Failed to initialize GLFW") tt;
                returned cerr_endl tt].
Proof.
  intros Hi. pose proof (init_failed_reach env fuel Hi) as Hr.
  cbn [In] in Hr.
  destruct Hr as [Hr | [Hr | [Hr | [Hr | []]]]]; rewrite <- Hr.
  - exists 0%nat. reflexivity.
  - exists 1%nat. rewrite calls_init. reflexivity.
  - exists 2%nat. rewrite !calls_after, calls_init. reflexivity.
  - exists 3%nat. unfold w_init_failed. rewrite !calls_after, calls_init.
    reflexivity.
Qed.

Lemma create_failed_logs env fuel :
  init_ok env = true -> create_ok env = false ->
  exists m,
    calls (fst (exec env fuel main world0))
    = firstn m [returned glfwInit (init_result env);
                returned create_call (create_result env);
                returned glfwTerminate tt;
                returned (cerr_str "Failed to create GLFW window") tt;
                returned cerr_endl tt].
Proof.
  intros Hi Hc. pose proof (calls_created env Hi) as Ha.
  pose proof (create_failed_reach env fuel Hi Hc) as Hr. cbn [In] in Hr.
  destruct Hr as [Hr | [Hr | [Hr | [Hr | [Hr | [Hr | []]]]]]]; rewrite <- Hr.
  - exists 0%nat. reflexivity.
  - exists 1%nat. rewrite calls_init. reflexivity.
  - exists 2%nat. rewrite ?calls_after, Ha. reflexivity.
  - exists 3%nat. rewrite ?calls_after, Ha. reflexivity.
  - exists 4%nat. rewrite ?calls_after, Ha. reflexivity.
  - exists 5%nat. unfold w_create_failed.
    rewrite !calls_after, Ha. reflexivity.
Qed.

(** ** The GLFW life cycle *)

Lemma glfw_run_app s cs ds :
  glfw_run s (cs ++ ds)
  = match glfw_run s cs with
    | Some s' => glfw_run s' ds
    | None => None
    end.
Proof.
  revert s. induction cs as [|c cs IH]; intros s; [reflexivity|].
  cbn. destruct (glfw_step s c); [apply IH | reflexivity].
Qed.

(** Following a concrete stretch of the log through the life cycle. *)
Ltac follow_calls :=
  repeat (progress (cbn; rewrite ?Z.eqb_refl, ?firstn_nil)).

Lemma glfw_run_turns p k :
  glfw_run (Open p true) (repeat_calls k (turn_calls p))
  = Some (Open p true).
Proof.
  induction k as [|k IH]; [reflexivity|].
  cbn [repeat_calls]. rewrite glfw_run_app.
  follow_calls. exact IH.
Qed.

Lemma glfw_run_setup env :
  init_ok env = true -> create_ok env = true ->
  glfw_run Start (setup_calls env) = Some (Open (create_result env) true)
  /\ forall m, exists s, glfw_run Start (firstn m (setup_calls env)) = Some s.
Proof.
  unfold init_ok, create_ok. intros Hi Hc.
  apply negb_true_iff in Hi. apply negb_true_iff in Hc.
  split.
  - cbn. rewrite Hi, Hc. follow_calls. reflexivity.
  - intros m. destruct m as [|[|[|[|[|m]]]]]; cbn;
      rewrite ?Hi, ?Hc; follow_calls; eexists; reflexivity.
Qed.

(** X4.  The calls of every run of [main], at every moment of the run,
    follow the life cycle of GLFW: [glfwInit] comes first; after a failed
    initialisation no GLFW call is made; the window is created while the
    subsystem is up; every call on a window names the handle
    [glfwCreateWindow] returned; the swap interval is set with a context
    current; the window is destroyed before [glfwTerminate]; and no GLFW
    call follows [glfwTerminate]. *)
Theorem glfw_life_cycle_respected env fuel :
  exists s,
    glfw_run Start (calls (fst (exec env fuel main world0))) = Some s.
Proof.
  destruct (init_ok env) eqn:Hi; [destruct (create_ok env) eqn:Hc|].
  - destruct (glfw_run_setup env Hi Hc) as [Hsetup Hpre].
    destruct (main_logs env fuel Hi Hc)
      as [(m & H) | [(k & j & H) | (k & j & H)]]; rewrite H.
    + apply Hpre.
    + rewrite glfw_run_app, Hsetup. cbv beta iota.
      rewrite glfw_run_app, glfw_run_turns.
      destruct j as [|[|[|j]]]; follow_calls; eexists; reflexivity.
    + rewrite glfw_run_app, Hsetup. cbv beta iota.
      rewrite glfw_run_app, glfw_run_turns.
      destruct j as [|[|j]]; follow_calls; eexists; reflexivity.
  - destruct (create_failed_logs env fuel Hi Hc) as (m & H). rewrite H.
    unfold init_ok, create_ok in *.
    apply negb_true_iff in Hi. apply negb_false_iff in Hc.
    destruct m as [|[|[|[|[|m]]]]]; cbn; rewrite ?Hi, ?Hc;
      follow_calls; eexists; reflexivity.
  - destruct (init_failed_logs env fuel Hi) as (m & H). rewrite H.
    unfold init_ok in *. apply negb_false_iff in Hi.
    destruct m as [|[|[|m]]]; cbn; rewrite ?Hi; follow_calls;
      eexists; reflexivity.
Qed.

(** The life cycle does reject calls out of place: a window call before
    initialisation, termination with the window still alive, a call after
    termination. *)
Example glfw_run_rejects :
  glfw_run Start [returned (glfwSwapBuffers 77) tt] = None
  /\ glfw_run Start [returned glfwInit 1; returned create_call 77;
                     returned glfwTerminate tt] = None
  /\ glfw_run Start [returned glfwInit 1; returned glfwTerminate tt;
                     returned glfwPollEvents tt] = None
  /\ glfw_run Start [returned glfwInit 0; returned create_call 0] = None.
Proof. repeat split. Qed.

(** ** Swaps, polls and checks *)

Lemma count_repeat_mul f k cs :
  count f (repeat_calls k cs) = (k * count f cs)%nat.
Proof.
  induction k as [|k IH]; [reflexivity|].
  cbn [repeat_calls]. rewrite count_app, IH. lia.
Qed.

(** X5.  At every moment of every run of [main]: polls never outnumber
    buffer swaps and swaps lead polls by at most one; swaps never outnumber
    the checks that found the close flag unset; and once a check has found
    the flag set (which happens at most once) there has been no swap
    without its poll and there is no further check, swap or poll. *)
Theorem swaps_polls_checks env fuel :
  let log := calls (fst (exec env fuel main world0)) in
  (count is_poll log <= count is_swap log)%nat
  /\ (count is_swap log + count check_set log <= count is_poll log + 1)%nat
  /\ (count is_swap log <= count check_unset log)%nat
  /\ (count check_unset log + count check_set log <= count is_swap log + 1)%nat.
Proof.
  cbv zeta.
  assert (Hsetup : forall m,
            count is_poll (firstn m (setup_calls env)) = O
            /\ count is_swap (firstn m (setup_calls env)) = O
            /\ count check_unset (firstn m (setup_calls env)) = O
            /\ count check_set (firstn m (setup_calls env)) = O).
  { intros m. destruct m as [|[|[|[|[|m]]]]]; cbn [firstn setup_calls];
      rewrite ?firstn_nil; repeat split. }
  destruct (init_ok env) eqn:Hi; [destruct (create_ok env) eqn:Hc|].
  - destruct (Hsetup 5%nat) as (Hp & Hs & Hu & Ht).
    cbn [firstn setup_calls] in Hp, Hs, Hu, Ht. fold (setup_calls env) in *.
    destruct (main_logs env fuel Hi Hc)
      as [(m & H) | [(k & j & H) | (k & j & H)]]; rewrite H.
    + destruct (Hsetup m) as (-> & -> & -> & ->). lia.
    + rewrite !count_app, !count_repeat_mul, Hp, Hs, Hu, Ht.
      change (count is_poll (turn_calls (create_result env))) with 1%nat.
      change (count is_swap (turn_calls (create_result env))) with 1%nat.
      change (count check_unset (turn_calls (create_result env))) with 1%nat.
      change (count check_set (turn_calls (create_result env))) with 0%nat.
      destruct j as [|[|[|j]]]; cbn [firstn turn_calls];
        rewrite ?firstn_nil; unfold count; cbn; lia.
    + rewrite !count_app, !count_repeat_mul, Hp, Hs, Hu, Ht.
      change (count is_poll (turn_calls (create_result env))) with 1%nat.
      change (count is_swap (turn_calls (create_result env))) with 1%nat.
      change (count check_unset (turn_calls (create_result env))) with 1%nat.
      change (count check_set (turn_calls (create_result env))) with 0%nat.
      destruct j as [|[|j]]; cbn [firstn exit_calls];
        rewrite ?firstn_nil; unfold count; cbn; lia.
  - destruct (create_failed_logs env fuel Hi Hc) as (m & H). rewrite H.
    destruct m as [|[|[|[|[|m]]]]]; cbn [firstn]; rewrite ?firstn_nil;
      unfold count; cbn; lia.
  - destruct (init_failed_logs env fuel Hi) as (m & H). rewrite H.
    destruct m as [|[|[|m]]]; cbn [firstn]; rewrite ?firstn_nil;
      unfold count; cbn; lia.
Qed.

(** ** When the loop ends *)

Lemma any_request_none env k :
  forall from,
    (forall j, (j < k)%nat -> close_request env (from + j) = false) ->
    any_request env from k = false.
Proof.
  induction k as [|k IH]; intros from H; [reflexivity|].
  cbn. rewrite <- (Nat.add_0_r from) at 1. rewrite (H O) by lia.
  cbn. apply IH. intros j Hj.
  replace (S from + j)%nat with (from + S j)%nat by lia. apply H. lia.
Qed.

Lemma open_while_no_request env k :
  init_ok env = true -> create_ok env = true ->
  (forall j, (j < k)%nat -> close_request env j = false) ->
  open_until env (create_result env) (S k) (w_ready env).
Proof.
  intros Hi Hc H j Hj. rewrite flag_ready by assumption.
  apply any_request_none. intros i Hi'. cbn. apply H. lia.
Qed.

Lemma polls_close_exit env p w : polls (close_exit env p w) = polls w.
Proof.
  unfold close_exit. rewrite !after_unfold. cbn.
  destruct (win w) as [x|]; [|reflexivity].
  destruct (w_handle x =? p); reflexivity.
Qed.

(** X1.  If both start-up steps succeed and no close request is ever
    delivered, [main] never returns: the loop has no other way out.  It
    keeps going round: after [5 + 4 * k] steps the log is the set-up calls
    followed by [k] full turns. *)
Theorem main_runs_forever env :
  init_result env <> 0 -> create_result env <> nullptr ->
  (forall k, close_request env k = false) ->
  (forall fuel, snd (exec env fuel main world0) = None)
  /\ (forall k,
        calls (fst (exec env (5 + 4 * k) main world0))
        = setup_calls env
          ++ repeat_calls k (turn_calls (create_result env))).
Proof.
  intros H0 H1 Hnone.
  pose proof (init_ok_true env H0) as Hi.
  pose proof (create_ok_true env H1) as Hc.
  split.
  - intros fuel.
    destruct (exec env fuel main world0) as [w' [r|]] eqn:E; [|reflexivity].
    exfalso. apply main_returns in E.
    destruct E as [(Hi' & _) | [(_ & Hc' & _) | (_ & _ & _ & k & _ & Hf & _)]].
    + congruence.
    + congruence.
    + rewrite flag_ready in Hf by assumption.
      apply any_request_inv in Hf. destruct Hf as (j & _ & Hj).
      rewrite Hnone in Hj. discriminate Hj.
  - intros k.
    assert (Hopen : open_until env (create_result env) k (w_ready env)).
    { intros j Hj.
      apply (open_while_no_request env k Hi Hc (fun i _ => Hnone i)). lia. }
    replace (5 + 4 * k)%nat with (5 + (4 * k + 0))%nat by lia.
    rewrite main_enters_loop by assumption.
    rewrite turns_exec by exact Hopen. cbn [exec fst].
    rewrite calls_turns by exact Hopen.
    rewrite calls_ready by exact Hi. reflexivity.
Qed.

Lemma main_runs_forever_witness :
  init_result env_never_closes <> 0
  /\ create_result env_never_closes <> nullptr
  /\ (forall k, close_request env_never_closes k = false)
  /\ snd (exec env_never_closes 1000 main world0) = None.
Proof.
  assert (H0 : init_result env_never_closes <> 0) by discriminate.
  assert (H1 : create_result env_never_closes <> nullptr) by discriminate.
  assert (H2 : forall k, close_request env_never_closes k = false)
    by (intros k; reflexivity).
  split; [exact H0|]. split; [exact H1|]. split; [exact H2|].
  exact (proj1 (main_runs_forever env_never_closes H0 H1 H2) 1000%nat).
Defined.

(** X2.  If both start-up steps succeed and the first close request is
    delivered by poll number [k] (counting from 0), then [main] returns 0
    after exactly [k + 1] turns of the loop: the log is the set-up calls,
    [k + 1] times check-swap-poll, then the check that finds the flag set,
    [glfwDestroyWindow] and [glfwTerminate]; there are [k + 1] swaps and
    [k + 1] polls, none of them after the request was delivered. *)
Theorem close_request_latency env k fuel :
  init_result env <> 0 -> create_result env <> nullptr ->
  close_request env k = true ->
  (forall j, (j < k)%nat -> close_request env j = false) ->
  (4 * k + 13 <= fuel)%nat ->
  exists w',
    exec env fuel main world0 = (w', Some 0)
    /\ calls w'
       = setup_calls env
         ++ repeat_calls (S k) (turn_calls (create_result env))
         ++ exit_calls (create_result env)
    /\ count is_swap (calls w') = S k
    /\ count is_poll (calls w') = S k
    /\ polls w' = S k.
Proof.
  intros H0 H1 Hk Hbefore Hfuel.
  pose proof (init_ok_true env H0) as Hi.
  pose proof (create_ok_true env H1) as Hc.
  pose proof (open_while_no_request env k Hi Hc Hbefore) as Hopen.
  assert (Hflag : flag_of (create_result env)
                    (turns env (create_result env) (S k) (w_ready env))
                  = true).
  { rewrite flag_ready by assumption.
    apply (any_request_at env (S k) O k); [lia | exact Hk]. }
  assert (Hcalls :
    calls (close_exit env (create_result env)
             (turns env (create_result env) (S k) (w_ready env)))
    = setup_calls env
      ++ repeat_calls (S k) (turn_calls (create_result env))
      ++ exit_calls (create_result env)).
  { rewrite calls_close_exit by exact Hflag.
    rewrite calls_turns by exact Hopen.
    rewrite calls_ready by exact Hi.
    rewrite <- app_assoc. reflexivity. }
  eexists. split; [|split; [exact Hcalls | split; [|split]]].
  - replace fuel
      with (5 + (4 * S k + (4 + (fuel - 4 * k - 13))))%nat by lia.
    rewrite main_enters_loop by assumption.
    rewrite turns_exec by exact Hopen.
    apply turn_closed_exec. exact Hflag.
  - rewrite Hcalls, !count_app, count_repeat_mul.
    change (count is_swap (setup_calls env)) with O.
    change (count is_swap (turn_calls (create_result env))) with 1%nat.
    change (count is_swap (exit_calls (create_result env))) with O. lia.
  - rewrite Hcalls, !count_app, count_repeat_mul.
    change (count is_poll (setup_calls env)) with O.
    change (count is_poll (turn_calls (create_result env))) with 1%nat.
    change (count is_poll (exit_calls (create_result env))) with O. lia.
  - rewrite polls_close_exit, polls_turns.
    destruct (win_ready env Hi Hc) as (_ & Hp & _). rewrite Hp. reflexivity.
Qed.

Lemma close_request_latency_witness :
  init_result env_closing <> 0 /\ create_result env_closing <> nullptr
  /\ close_request env_closing 2 = true
  /\ (forall j, (j < 2)%nat -> close_request env_closing j = false)
  /\ (4 * 2 + 13 <= 21)%nat
  /\ exists w', exec env_closing 21 main world0 = (w', Some 0)
                /\ count is_swap (calls w') = 3%nat.
Proof.
  assert (H0 : init_result env_closing <> 0) by discriminate.
  assert (H1 : create_result env_closing <> nullptr) by discriminate.
  assert (H2 : forall j, (j < 2)%nat -> close_request env_closing j = false).
  { intros j Hj. destruct j as [|[|j]]; [reflexivity | reflexivity | lia]. }
  assert (H3 : (4 * 2 + 13 <= 21)%nat) by (cbn; apply le_n).
  split; [exact H0|]. split; [exact H1|]. split; [reflexivity|].
  split; [exact H2|]. split; [exact H3|].
  destruct (close_request_latency env_closing 2 21 H0 H1 eq_refl H2 H3)
    as (w' & Hrun & _ & Hswap & _).
  exists w'. split; [exact Hrun | exact Hswap].
Defined.

(** ** Standard error *)

(** Unfolding the worlds along [main] down to their fields. *)
Ltac world_fields :=
  unfold w_create_failed, w_init_failed, w_ready, w_created, w_init;
  rewrite ?after_unfold; cbn.

Lemma loop_keeps_stderr env p fuel w :
  stderr (fst (exec env fuel (loop_then_shutdown p) w)) = stderr w.
Proof.
  apply (exec_invariant env (loop_call p)
           (fun w' => stderr w' = stderr w)).
  - intros X e w' He H. rewrite <- H. rewrite after_unfold.
    destruct He; cbn; try reflexivity.
    destruct (win w') as [x|]; [|reflexivity].
    destruct (w_handle x =? p); reflexivity.
  - apply loop_issues_strict.
  - reflexivity.
Qed.

(** X3.  Whatever happens, standard error holds nothing, or one of the two
    diagnostics, with or without its end of line; and when both start-up
    steps succeed [main] never writes to standard error at all. *)
Theorem stderr_content env fuel :
  In (stderr (fst (exec env fuel main world0)))
     [EmptyString;
      msg_init_failed; (msg_init_failed ++ newline)%string;
      msg_create_failed; (msg_create_failed ++ newline)%string]
  /\ (init_result env <> 0 -> create_result env <> nullptr ->
      stderr (fst (exec env fuel main world0)) = EmptyString).
Proof.
  assert (Hok : init_ok env = true -> create_ok env = true ->
                stderr (fst (exec env fuel main world0)) = EmptyString).
  { intros Hi Hc.
    destruct (loop_reach env fuel Hi Hc) as [Hr | (n & _ & Hr)].
    - cbn [In] in Hr.
      destruct Hr as [Hr | [Hr | [Hr | [Hr | [Hr | []]]]]]; rewrite <- Hr;
        world_fields; try destruct (_ && _); reflexivity.
    - rewrite Hr, loop_keeps_stderr. world_fields.
      destruct (_ && _); reflexivity. }
  split.
  - destruct (init_ok env) eqn:Hi; [destruct (create_ok env) eqn:Hc|].
    + rewrite Hok by reflexivity. cbn. auto.
    + pose proof (create_failed_reach env fuel Hi Hc) as Hr. cbn [In] in Hr.
      destruct Hr as [Hr | [Hr | [Hr | [Hr | [Hr | [Hr | []]]]]]];
        rewrite <- Hr; world_fields; try destruct (_ && _); cbn; auto 6.
    + pose proof (init_failed_reach env fuel Hi) as Hr. cbn [In] in Hr.
      destruct Hr as [Hr | [Hr | [Hr | [Hr | []]]]];
        rewrite <- Hr; world_fields; cbn; auto 6.
  - intros H0 H1. apply Hok; [apply init_ok_true | apply create_ok_true];
      assumption.
Qed.

Lemma stderr_content_witness :
  init_result env_closing <> 0 /\ create_result env_closing <> nullptr
  /\ stderr (fst (exec env_closing 21 main world0)) = EmptyString.
Proof.
  assert (H0 : init_result env_closing <> 0) by discriminate.
  assert (H1 : create_result env_closing <> nullptr) by discriminate.
  split; [exact H0|]. split; [exact H1|].
  exact (proj2 (stderr_content env_closing 21) H0 H1).
Defined.

(** ** What a failed start-up leaves behind *)

(** X7.  When [glfwInit] fails or [glfwCreateWindow] returns no handle,
    then at every moment of the run there is no window, no context has been
    made current, no swap interval has been set, no draw callback has been
    registered, no event has been polled and nothing has been drawn. *)
Theorem failed_startup_sets_nothing_up env fuel :
  init_result env = 0 \/ create_result env = nullptr ->
  win (fst (exec env fuel main world0)) = None
  /\ current (fst (exec env fuel main world0)) = nullptr
  /\ swap_interval (fst (exec env fuel main world0)) = None
  /\ display_cb (fst (exec env fuel main world0)) = None
  /\ polls (fst (exec env fuel main world0)) = O
  /\ count is_swap (calls (fst (exec env fuel main world0))) = O.
Proof.
  intros Hfail.
  assert (Hcases : init_ok env = false
                   \/ (init_ok env = true /\ create_ok env = false)).
  { destruct (init_ok env) eqn:Hi; [right | left; reflexivity].
    split; [reflexivity|].
    destruct Hfail as [H0 | H1].
    - rewrite (init_ok_false env H0) in Hi. discriminate Hi.
    - apply create_ok_false. exact H1. }
  destruct Hcases as [Hi | [Hi Hc]].
  - destruct (init_failed_logs env fuel Hi) as (m & Hlog). rewrite Hlog.
    assert (Hcount : forall l : list Call,
              l = [returned glfwInit (init_result env);
                   returned (cerr_str "Failed to initialize GLFW") tt;
                   returned cerr_endl tt] ->
              count is_swap (firstn m l) = O).
    { intros l ->. destruct m as [|[|[|m]]]; cbn [firstn];
        rewrite ?firstn_nil; reflexivity. }
    rewrite (Hcount _ eq_refl).
    pose proof (init_failed_reach env fuel Hi) as Hr. cbn [In] in Hr.
    destruct Hr as [Hr | [Hr | [Hr | [Hr | []]]]];
      rewrite <- Hr; world_fields; repeat split.
  - destruct (create_failed_logs env fuel Hi Hc) as (m & Hlog). rewrite Hlog.
    assert (Hcount : forall l : list Call,
              l = [returned glfwInit (init_result env);
                   returned create_call (create_result env);
                   returned glfwTerminate tt;
                   returned (cerr_str "Failed to create GLFW window") tt;
                   returned cerr_endl tt] ->
              count is_swap (firstn m l) = O).
    { intros l ->. destruct m as [|[|[|[|[|m]]]]]; cbn [firstn];
        rewrite ?firstn_nil; reflexivity. }
    rewrite (Hcount _ eq_refl).
    pose proof (create_failed_reach env fuel Hi Hc) as Hr. cbn [In] in Hr.
    unfold create_ok in Hc. apply negb_false_iff in Hc.
    destruct Hr as [Hr | [Hr | [Hr | [Hr | [Hr | [Hr | []]]]]]];
      rewrite <- Hr; world_fields; rewrite ?Hc, ?andb_false_r; cbn;
      repeat split.
Qed.

Lemma failed_startup_sets_nothing_up_witness :
  (init_result env_no_window = 0 \/ create_result env_no_window = nullptr)
  /\ display_cb (fst (exec env_no_window 6 main world0)) = None.
Proof.
  assert (H : init_result env_no_window = 0
              \/ create_result env_no_window = nullptr)
    by (right; reflexivity).
  split; [exact H|].
  exact (proj1 (proj2 (proj2 (proj2
           (failed_startup_sets_nothing_up env_no_window 6 H))))).
Defined.

(** ** The window during the loop *)

Lemma live_ready env :
  init_ok env = true -> create_ok env = true -> window_live env (w_ready env).
Proof.
  intros Hi Hc. destruct (win_ready env Hi Hc) as (Hw & _ & Hup & _).
  eexists. split; [exact Hw|]. split; [reflexivity|].
  split; [|split; [exact Hup|]].
  - unfold w_ready. rewrite !after_unfold. reflexivity.
  - unfold w_ready. rewrite !after_unfold. reflexivity.
Qed.

Lemma live_same env w1 w2 :
  same_but_flag w1 w2 -> window_live env w1 -> window_live env w2.
Proof.
  intros (Hup & Hcur & Hsi & _ & _ & _ & Hwin) (x & Hw & Hh & Hc & Hu & Hs).
  rewrite Hw in Hwin. destruct (win w2) as [y|] eqn:Hy; [|discriminate Hwin].
  cbn in Hwin. exists y. split; [exact Hy|].
  split; [congruence|]. split; [congruence|]. split; congruence.
Qed.

Lemma live_after_check env w :
  window_live env w ->
  window_live env (after env (glfwWindowShouldClose (create_result env)) w).
Proof.
  intros (x & Hw & Hh & Hc & Hu & Hs). exists x.
  rewrite after_unfold. cbn. repeat split; assumption.
Qed.

Lemma live_after_swap env w :
  window_live env w ->
  window_live env (after env (glfwSwapBuffers (create_result env)) w).
Proof.
  intros (x & Hw & Hh & Hc & Hu & Hs). exists x.
  rewrite after_unfold. cbn. repeat split; assumption.
Qed.

Lemma destroyed_after env w :
  window_live env w ->
  win (after env (glfwDestroyWindow (create_result env)) w) = None
  /\ swap_interval (after env (glfwDestroyWindow (create_result env)) w)
     = Some 1.
Proof.
  intros (x & Hw & Hh & Hc & Hu & Hs).
  rewrite after_unfold. cbn. rewrite Hw, Hh, Z.eqb_refl. cbn.
  split; [reflexivity | exact Hs].
Qed.

(** X6.  Once the loop is entered, at every moment of the run either no
    [glfwDestroyWindow] has been called and the window [main] created is
    alive, with its context current, the subsystem up and the swap interval
    at 1; or [glfwDestroyWindow] has been called exactly once and no window
    is left.  So every check, swap and poll of the loop acts on a live
    window, and nothing uses the window after its destruction. *)
Theorem window_live_until_destroyed env fuel :
  init_result env <> 0 -> create_result env <> nullptr -> (5 <= fuel)%nat ->
  (window_live env (fst (exec env fuel main world0))
   /\ count is_destroy (calls (fst (exec env fuel main world0))) = O)
  \/ (win (fst (exec env fuel main world0)) = None
      /\ swap_interval (fst (exec env fuel main world0)) = Some 1
      /\ count is_destroy (calls (fst (exec env fuel main world0))) = 1%nat).
Proof.
  intros H0 H1 Hfuel.
  pose proof (init_ok_true env H0) as Hi.
  pose proof (create_ok_true env H1) as Hc.
  replace fuel with (5 + (fuel - 5))%nat by lia.
  rewrite main_enters_loop by assumption.
  set (p := create_result env).
  destruct (loop_worlds env p (fuel - 5) (w_ready env))
    as (k & Hopen & Hcases).
  assert (Hlive : window_live env (turns env p k (w_ready env))).
  { apply (live_same env (w_ready env)); [apply turns_same|].
    apply live_ready; assumption. }
  pose proof (calls_turns env p k _ Hopen) as Hk.
  rewrite (calls_ready env Hi) in Hk. fold (setup_calls env) in Hk.
  assert (Hzero : count is_destroy (calls (turns env p k (w_ready env))) = O).
  { rewrite Hk, count_app, count_repeat_mul.
    change (count is_destroy (setup_calls env)) with O.
    change (count is_destroy (turn_calls p)) with O. lia. }
  destruct Hcases as [H | [H | [[Hf H] | [[Hf H] | [Hf H]]]]]; rewrite H.
  - left. split; [exact Hlive | exact Hzero].
  - left. split; [apply live_after_check; exact Hlive|].
    rewrite count_step; [exact Hzero | reflexivity].
  - left. split; [apply live_after_swap, live_after_check; exact Hlive|].
    rewrite !count_step; [exact Hzero | reflexivity | reflexivity].
  - right.
    destruct (destroyed_after env _ (live_after_check env _ Hlive))
      as [Hnone Hsi].
    split; [exact Hnone|]. split; [exact Hsi|].
    rewrite calls_after, count_app, count_step by reflexivity.
    rewrite Hzero. reflexivity.
  - right.
    destruct (destroyed_after env _ (live_after_check env _ Hlive))
      as [Hnone Hsi].
    unfold close_exit. split; [|split].
    + rewrite after_unfold. reflexivity.
    + rewrite after_unfold. cbn. exact Hsi.
    + rewrite count_step by reflexivity.
      rewrite calls_after, count_app, count_step by reflexivity.
      rewrite Hzero. reflexivity.
Qed.

Lemma window_live_until_destroyed_witness :
  init_result env_closing <> 0 /\ create_result env_closing <> nullptr
  /\ (5 <= 9)%nat
  /\ ((window_live env_closing (fst (exec env_closing 9 main world0))
       /\ count is_destroy (calls (fst (exec env_closing 9 main world0))) = O)
      \/ (win (fst (exec env_closing 9 main world0)) = None
          /\ swap_interval (fst (exec env_closing 9 main world0)) = Some 1
          /\ count is_destroy (calls (fst (exec env_closing 9 main world0)))
             = 1%nat)).
Proof.
  assert (H0 : init_result env_closing <> 0) by discriminate.
  assert (H1 : create_result env_closing <> nullptr) by discriminate.
  assert (H2 : (5 <= 9)%nat) by (repeat constructor).
  split; [exact H0|]. split; [exact H1|]. split; [exact H2|].
  exact (window_live_until_destroyed env_closing 9 H0 H1 H2).
Defined.

(** ** What [display] leaves behind *)

(** X8.  An invocation of [display] is not without effect on later
    drawing: whatever the current colour was, it is black afterwards (the
    routine sets it and does not restore it).  The clear colour, the
    viewport and the absence of a primitive under construction are as
    before, and outside OpenGL nothing changes: window, close flag, current
    context, swap interval, registered callback, standard error and the
    count of polls are untouched. *)
Theorem display_side_effects env w :
  building (gl w) = None ->
  cur_color (gl (run_display env w)) = black
  /\ clear_color (gl (run_display env w)) = clear_color (gl w)
  /\ vp_width (gl (run_display env w)) = vp_width (gl w)
  /\ vp_height (gl (run_display env w)) = vp_height (gl w)
  /\ building (gl (run_display env w)) = None
  /\ glfw_up (run_display env w) = glfw_up w
  /\ win (run_display env w) = win w
  /\ current (run_display env w) = current w
  /\ swap_interval (run_display env w) = swap_interval w
  /\ display_cb (run_display env w) = display_cb w
  /\ stderr (run_display env w) = stderr w
  /\ polls (run_display env w) = polls w.
Proof.
  intros Hb. rewrite display_gl by exact Hb. cbn.
  pose proof (display_rest env w) as H.
  repeat split; apply H.
Qed.

Lemma display_side_effects_witness :
  building (gl world_white) = None
  /\ cur_color (gl world_white) = white
  /\ cur_color (gl (run_display env_closing world_white)) = black.
Proof.
  split; [reflexivity|]. split; [reflexivity|].
  exact (proj1 (display_side_effects env_closing world_white eq_refl)).
Defined.
